(** * plotly.io._orca: the orca server supervisor, embedded in Rocq

    A shallow embedding of [plotly/io/_orca.py]: the configuration object
    ([OrcaConfig]), the status object ([OrcaStatus]), the process table
    ([__orca_state]) and the functions that launch, stop and query the orca
    server.  Python values are a small tagged union, the three module-level
    singletons are fields of one [state] record, and every function is a
    computation in a state-and-exception monad in which a raised exception
    keeps the mutations made before it (as in Python).  Calls that leave the
    interpreter (sockets, subprocesses, psutil, HTTP, the file system) are
    answered by a [World]: a deterministic environment that sees the history
    of calls made so far. *)

From Stdlib Require Import ZArith Ascii String List Bool Lia.
From stdpp Require Import base option list gmap strings pretty.

Open Scope string_scope.
Open Scope Z_scope.

(** ** Python values *)

(** The values the module inspects: it tests for [None], for [int] (of which
    [bool] is a subclass), for [float], for [str], and for truthiness, and it
    applies [str].  A float is carried by its [repr], which identifies it;
    any other object is carried by its truth value and its [str]. *)
Inductive value :=
| VNone
| VBool (b : bool)
| VInt (n : Z)
| VFloat (repr : string)
| VStr (s : string)
| VOther (truth : bool) (str : string).

Definition is_None (v : value) : bool :=
  match v with VNone => true | _ => false end.

(** [isinstance(v, int)] *)
Definition isinstance_int (v : value) : bool :=
  match v with VBool _ | VInt _ => true | _ => false end.

(** [isinstance(v, (int, float))] *)
Definition isinstance_number (v : value) : bool :=
  match v with VBool _ | VInt _ | VFloat _ => true | _ => false end.

(** [isinstance(v, string_types)] *)
Definition isinstance_str (v : value) : bool :=
  match v with VStr _ => true | _ => false end.

(** [bool(v)] *)
Definition truthy (v : value) : bool :=
  match v with
  | VNone => false
  | VBool b => b
  | VInt n => negb (n =? 0)
  | VFloat r => negb (String.eqb r "0.0" || String.eqb r "-0.0")
  | VStr s => negb (String.eqb s "")
  | VOther t _ => t
  end.

(** [str(v)] *)
Definition py_str (v : value) : string :=
  match v with
  | VNone => "None"
  | VBool true => "True"
  | VBool false => "False"
  | VInt n => pretty n
  | VFloat r => r
  | VStr s => s
  | VOther _ s => s
  end.

(** ** Exceptions *)

(** The [ValueError]s the module raises, by the message they carry. *)
Inductive value_error :=
| InvalidFormat (v : value)
| UpdateNotADict
| InvalidPropertyName (k : string)
| BadPort (v : value)
| BadExecutable (v : value)
| BadTimeout (v : value)
| BadDefaultWidth (v : value)
| BadDefaultHeight (v : value)
| BadDefaultScale (v : value)
| BadTopojson (v : value)
| BadMathjax (v : value)
| BadMapboxAccessToken (v : value)
| ExecutableNotFound (executable : value)
| InvalidExecutable (executable : string)
| VersionFailed
| NoVersionReported
| PsutilRequired
| CannotInferImageType (file : string).

Inductive exn :=
| ValueError (why : value_error)
| KeyError (key : string)
| AttributeError (name : string)
| CalledProcessError
| External (name : string).  (* raised inside a library or system call *)

Definition is_ValueError (e : exn) : bool :=
  match e with ValueError _ => true | _ => false end.

Inductive result (A : Type) :=
| Ok (a : A)
| Raise (e : exn).
Arguments Ok {A} a.
Arguments Raise {A} e.

(** ** Strings: [str.lower], [os.path.splitext], [os.path.join] *)

(** [str.lower] on the ASCII letters; the other characters of a string are
    carried as they are, which changes no membership in the format table:
    no character outside ASCII lower-cases to a letter of a format name. *)
Definition lower_char (c : ascii) : ascii :=
  let n := N_of_ascii c in
  if ((65 <=? n) && (n <=? 90))%N then ascii_of_N (n + 32) else c.

Fixpoint lower (s : string) : string :=
  match s with
  | EmptyString => EmptyString
  | String c r => String (lower_char c) (lower r)
  end.

(** [s.rfind(c)]: the last index of [c], [None] for Python's [-1]. *)
Fixpoint rfind_from (c : ascii) (s : string) (i : nat) (acc : option nat)
  : option nat :=
  match s with
  | EmptyString => acc
  | String d r => rfind_from c r (S i) (if Ascii.eqb c d then Some i else acc)
  end.

Definition rfind (c : ascii) (s : string) : option nat := rfind_from c s 0%nat None.

(** The [while] loop of [genericpath._splitext] that skips leading dots:
    [fuel] is [dotIndex - filenameIndex]. *)
Fixpoint skip_leading_dots (p : string) (filenameIndex fuel : nat) : bool :=
  match fuel with
  | O => false
  | S fuel' =>
      match String.get filenameIndex p with
      | Some c => if Ascii.eqb c "." then skip_leading_dots p (S filenameIndex) fuel'
                  else true
      | None => false
      end
  end.

(** [os.path.splitext] (posixpath: [sep = '/'], no [altsep], [extsep = '.']). *)
Definition splitext (p : string) : string * string :=
  let filenameIndex := match rfind "/" p with Some i => S i | None => O end in
  match rfind "." p with
  | Some dotIndex =>
      if (filenameIndex <=? dotIndex)%nat
           && skip_leading_dots p filenameIndex (dotIndex - filenameIndex)
      then (String.substring 0 dotIndex p,
            String.substring dotIndex (String.length p - dotIndex) p)
      else (p, "")
  | None => (p, "")
  end.

Definition ends_with_sep (a : string) : bool :=
  match String.get (String.length a - 1) a with
  | Some c => Ascii.eqb c "/"
  | None => false
  end.

(** [os.path.join(a, b)] (posixpath, two components). *)
Definition path_join (a b : string) : string :=
  match b with
  | String "/" _ => b
  | _ => if String.eqb a "" || ends_with_sep a then a +:+ b
         else a +:+ "/" +:+ b
  end.

Arguments path_join : simpl never.

(** ** Valid image format constants *)

Definition valid_formats : list string :=
  ["png"; "jpeg"; "webp"; "svg"; "pdf"; "eps"].

(** [{fmt: fmt for fmt in valid_formats}] followed by
    [.update({'jpg': 'jpeg'})]. *)
Definition _format_conversions : gmap string string :=
  <["jpg" := "jpeg"]> (list_to_map ((fun fmt => (fmt, fmt)) <$> valid_formats)).

Definition _raise_format_value_error {A} (val : value) : result A :=
  Raise (ValueError (InvalidFormat val)).

(** [if fmt[0] == '.': fmt = fmt[1:]] *)
Definition strip_dot (fmt : string) : string :=
  match fmt with String "." r => r | _ => fmt end.

Definition _validate_coerce_format (fmt : value) : result value :=
  (* Let None pass through *)
  if is_None fmt then Ok VNone
  else if negb (isinstance_str fmt) || negb (truthy fmt)
  then _raise_format_value_error fmt
  else
    match fmt with
    | VStr s =>
        let fmt := lower s in
        let fmt := strip_dot fmt in
        match _format_conversions !! fmt with
        | None => _raise_format_value_error (VStr fmt)
        | Some f => Ok (VStr f)
        end
    | _ => _raise_format_value_error fmt
    end.

(** [s.strip()] on ASCII whitespace. *)
Definition is_space (c : ascii) : bool :=
  let n := N_of_ascii c in
  ((n =? 32) || ((9 <=? n) && (n <=? 13)))%N.

Fixpoint lstrip (s : string) : string :=
  match s with
  | String c r => if is_space c then lstrip r else s
  | EmptyString => EmptyString
  end.

Fixpoint rstrip (s : string) : string :=
  match s with
  | EmptyString => EmptyString
  | String c r =>
      match rstrip r with
      | EmptyString => if is_space c then EmptyString else String c EmptyString
      | r' => String c r'
      end
  end.

Definition strip (s : string) : string := rstrip (lstrip s).

(** [needle in s] *)
Definition contains (needle s : string) : bool :=
  match String.index 0 needle s with Some _ => true | None => false end.

(** ** The three singletons and the outside world *)

Inductive server_state := unvalidated | validated | running.

(** [status._props] *)
Record OrcaStatus := mkStatus {
  st_state : server_state;
  st_executable : option string;
  st_version : option string;
  st_pid : option Z;
  st_port : value;
  st_command : option (list value) }.

(** A [threading.Timer(interval, shutdown_orca_server)]. *)
Record timer := Timer { interval : value }.

(** What is on disk at [config.config_file]. *)
Inductive json_text :=
| NotJson
| JsonObject (items : list (string * value))
| JsonOther (v : value).

Inductive config_file_content :=
| FileAbsent
| FileUnreadable
| FileText (text : json_text).

(** Calls that leave the interpreter, in the order they were made. *)
Inductive event :=
| EWhich (cmd : value)
| ECheckOutput (args : list string)
| EFindOpenPort
| EPopen (cmd_list : list value)
| EChildren (pid : Z)
| EChildTerminate (child : Z)
| ETerminate (pid : Z)
| ECommunicate (pid : Z)
| EWait (pid : Z)
| ETimerCancel (t : timer)
| ETimerStart (t : timer)
| EPost (url : string) (request_params : list (string * value))
| ESleep (ms : Z)
| EWarn (msg : string)
| EOpenConfig (mode : string)
| EOpenWrite (path : string)
| EFileWrite (path : string)
| EObjectWrite (file : value).

(** An HTTP response: [r.status_code] and [r.content]. *)
Record response := Response { status_code : Z; content : string }.

(** The environment.  Each answer may depend on the calls made so far. *)
Record World := mkWorld {
  (* get_module('psutil') is not None *)
  psutil : bool;
  (* os.path.dirname(os.path.abspath(plotly.__file__)) *)
  root_dir : string;
  (* shutil.which *)
  shutil_which : list event -> value -> result (option string);
  (* subprocess.check_output: stdout, or CalledProcessError, or another error *)
  check_output : list event -> list string -> result string;
  (* the socket calls of _find_open_port *)
  getsockname : list event -> result Z;
  (* subprocess.Popen(cmd_list, stdout=PIPE): the pid of the child *)
  Popen : list event -> list value -> result Z;
  (* psutil.Process(pid).children(recursive=True) *)
  children : list event -> Z -> result (list Z);
  child_terminate : list event -> Z -> result unit;
  proc_terminate : list event -> Z -> result unit;
  proc_communicate : list event -> Z -> result unit;
  proc_wait : list event -> Z -> result unit;
  (* json.dumps with the PlotlyJSONEncoder, then requests.post *)
  requests_post : list event -> string -> list (string * value) -> result response;
  (* milliseconds the post took *)
  post_elapsed : list event -> Z;
  (* random.randint(5, 10) *)
  randint : list event -> Z;
  (* open(config_file, 'w') *)
  open_config_w : list event -> result unit;
  (* open(file, 'wb') *)
  open_wb : list event -> string -> result unit;
  (* file.write(img_data) on a writeable object *)
  object_write : list event -> value -> string -> result unit;
  (* f.write(img_data) on the file just opened, and the close that ends the
     with block *)
  file_write : list event -> string -> string -> result unit;
  (* what the file holds when that write or close has failed *)
  file_left : list event -> string -> string -> string;
  (* what file.write(img_data) on a writeable object does to the files: an
     open file object changes its file, a buffer in memory changes none *)
  object_files : list event -> value -> string ->
                 gmap string string -> gmap string string }.

Record state := mkState {
  config_props : gmap string value;          (* config._props *)
  status : OrcaStatus;                       (* status._props *)
  orca_proc : option Z;                      (* __orca_state['proc'] *)
  orca_shutdown_timer : option timer;        (* __orca_state['shutdown_timer'] *)
  orca_port : option value;                  (* __orca_state['port'], if the key is there *)
  config_file : config_file_content;
  files : gmap string string;                (* the files, by path *)
  clock : Z;                                 (* int(round(time.time() * 1000)) *)
  trace : list event }.

Definition set_config_props (f : gmap string value -> gmap string value) (s : state) :=
  mkState (f (config_props s)) (status s) (orca_proc s) (orca_shutdown_timer s)
          (orca_port s) (config_file s) (files s) (clock s) (trace s).
Definition set_status (f : OrcaStatus -> OrcaStatus) (s : state) :=
  mkState (config_props s) (f (status s)) (orca_proc s) (orca_shutdown_timer s)
          (orca_port s) (config_file s) (files s) (clock s) (trace s).
Definition set_orca_proc (p : option Z) (s : state) :=
  mkState (config_props s) (status s) p (orca_shutdown_timer s)
          (orca_port s) (config_file s) (files s) (clock s) (trace s).
Definition set_orca_shutdown_timer (t : option timer) (s : state) :=
  mkState (config_props s) (status s) (orca_proc s) t
          (orca_port s) (config_file s) (files s) (clock s) (trace s).
Definition set_orca_port (p : option value) (s : state) :=
  mkState (config_props s) (status s) (orca_proc s) (orca_shutdown_timer s)
          p (config_file s) (files s) (clock s) (trace s).
Definition set_config_file (c : config_file_content) (s : state) :=
  mkState (config_props s) (status s) (orca_proc s) (orca_shutdown_timer s)
          (orca_port s) c (files s) (clock s) (trace s).
Definition set_files (f : gmap string string -> gmap string string) (s : state) :=
  mkState (config_props s) (status s) (orca_proc s) (orca_shutdown_timer s)
          (orca_port s) (config_file s) (f (files s)) (clock s) (trace s).
Definition set_clock (f : Z -> Z) (s : state) :=
  mkState (config_props s) (status s) (orca_proc s) (orca_shutdown_timer s)
          (orca_port s) (config_file s) (files s) (f (clock s)) (trace s).
Definition log (e : event) (s : state) :=
  mkState (config_props s) (status s) (orca_proc s) (orca_shutdown_timer s)
          (orca_port s) (config_file s) (files s) (clock s) (trace s ++ [e]).

Definition st_set_state (x : server_state) (t : OrcaStatus) :=
  mkStatus x (st_executable t) (st_version t) (st_pid t) (st_port t) (st_command t).
Definition st_set_executable (x : option string) (t : OrcaStatus) :=
  mkStatus (st_state t) x (st_version t) (st_pid t) (st_port t) (st_command t).
Definition st_set_version (x : option string) (t : OrcaStatus) :=
  mkStatus (st_state t) (st_executable t) x (st_pid t) (st_port t) (st_command t).
Definition st_set_pid (x : option Z) (t : OrcaStatus) :=
  mkStatus (st_state t) (st_executable t) (st_version t) x (st_port t) (st_command t).
Definition st_set_port (x : value) (t : OrcaStatus) :=
  mkStatus (st_state t) (st_executable t) (st_version t) (st_pid t) x (st_command t).
Definition st_set_command (x : option (list value)) (t : OrcaStatus) :=
  mkStatus (st_state t) (st_executable t) (st_version t) (st_pid t) (st_port t) x.

(** ** The monad: state, and exceptions that keep the state *)

Definition M (A : Type) : Type := state -> result A * state.

Definition ret {A} (a : A) : M A := fun s => (Ok a, s).

Definition raise {A} (e : exn) : M A := fun s => (Raise e, s).

Definition bind {A B} (m : M A) (k : A -> M B) : M B :=
  fun s => match m s with
           | (Ok a, s') => k a s'
           | (Raise e, s') => (Raise e, s')
           end.

Notation "'let*' x ':=' m 'in' k" := (bind m (fun x => k))
  (at level 10, x name, m at level 100, k at level 200).
Notation "m1 ;; m2" := (bind m1 (fun _ => m2))
  (at level 100, m2 at level 200, right associativity).

Definition gets {A} (f : state -> A) : M A := fun s => (Ok (f s), s).

Definition modify (f : state -> state) : M unit := fun s => (Ok tt, f s).

(** A call answered by the world: the answer is computed from the history,
    then the call joins the history. *)
Definition call {A} (e : event) (answer : list event -> result A) : M A :=
  fun s => (answer (trace s), log e s).

(** [try: m except E: h] for the exceptions [E] selected by [catches]. *)
Definition try_except {A} (m : M A) (catches : exn -> bool) (h : M A) : M A :=
  fun s => match m s with
           | (Raise e, s') => if catches e then h s' else (Raise e, s')
           | r => r
           end.

Definition when (b : bool) (m : M unit) : M unit := if b then m else ret tt.

Fixpoint for_each {A} (l : list A) (body : A -> M unit) : M unit :=
  match l with
  | [] => ret tt
  | x :: l' => body x ;; for_each l' body
  end.

Definition warn (msg : string) : M unit :=
  fun s => (Ok tt, log (EWarn msg) s).

Section Orca.
Context (W : World).

(** ** Process control: [shutdown_orca_server], [reset_orca_status] *)

(** The calls of [shutdown_orca_server] that stop the process and its
    children (psutil and [Popen] methods). *)
Definition terminate_process_tree (pid : Z) : M unit :=
  let* kids := call (EChildren pid) (fun h => children W h pid) in
  for_each kids (fun child =>
    call (EChildTerminate child) (fun h => child_terminate W h child)) ;;
  call (ETerminate pid) (fun h => proc_terminate W h pid) ;;
  call (ECommunicate pid) (fun h => proc_communicate W h pid) ;;
  (* Wait for the process to shutdown *)
  call (EWait pid) (fun h => proc_wait W h pid).

(** The assignments of [shutdown_orca_server] that follow. *)
Definition clear_process_state : M unit :=
  (* Update our internal process management state *)
  modify (set_orca_proc None) ;;
  let* t := gets orca_shutdown_timer in
  match t with
  | Some t => modify (log (ETimerCancel t)) ;;
              modify (set_orca_shutdown_timer None)
  | None => ret tt
  end ;;
  modify (set_orca_port (Some VNone)) ;;
  (* Update orca.status so the user has an accurate view *)
  modify (set_status (st_set_state validated)) ;;
  modify (set_status (st_set_pid None)) ;;
  modify (set_status (st_set_port VNone)) ;;
  modify (set_status (st_set_command None)).

Definition shutdown_orca_server : M unit :=
  (* double-check locking; [with __orca_lock] is the identity on one thread *)
  let* proc := gets orca_proc in
  match proc with
  | None => ret tt
  | Some _ =>
      let* proc := gets orca_proc in
      match proc with
      | None => ret tt
      | Some pid => terminate_process_tree pid ;; clear_process_state
      end
  end.

Definition reset_orca_status : M unit :=
  shutdown_orca_server ;;
  modify (set_status (st_set_executable None)) ;;
  modify (set_status (st_set_version None)) ;;
  modify (set_status (st_set_state unvalidated)).

(** ** [OrcaConfig] *)

Definition package_dir : string := path_join (root_dir W) "package_data".

(** [self._props.get(k, default)] *)
Definition props_get (k : string) (default : value) : M value :=
  gets (fun s => match config_props s !! k with Some v => v | None => default end).

(** [self._props[k] = val] *)
Definition props_set (k : string) (val : value) : M unit :=
  modify (set_config_props (insert k val)).

Definition restore_defaults (reset_server : bool) : M unit :=
  modify (set_config_props (fun _ => ∅)) ;;
  when reset_server reset_orca_status.

Definition get_port : M value := props_get "port" VNone.

Definition set_port (val : value) : M unit :=
  if negb (is_None val) && negb (isinstance_int val)
  then raise (ValueError (BadPort val))
  else props_set "port" val.

Definition get_executable : M value := props_get "executable" (VStr "orca").

Definition set_executable (val : value) : M unit :=
  (* Use default value if val is None or empty *)
  let val := if negb (truthy val) then VStr "orca" else val in
  if negb (isinstance_str val) then raise (ValueError (BadExecutable val))
  else
    props_set "executable" val ;;
    (* Server must restart before setting is active *)
    shutdown_orca_server.

Definition get_timeout : M value := props_get "timeout" VNone.

Definition set_timeout (val : value) : M unit :=
  if negb (is_None val) && negb (isinstance_number val)
  then raise (ValueError (BadTimeout val))
  else props_set "timeout" val.

Definition get_default_width : M value := props_get "default_width" VNone.

Definition set_default_width (val : value) : M unit :=
  if negb (is_None val) && negb (isinstance_int val)
  then raise (ValueError (BadDefaultWidth val))
  else props_set "default_width" val.

Definition get_default_height : M value := props_get "default_height" VNone.

Definition set_default_height (val : value) : M unit :=
  if negb (is_None val) && negb (isinstance_int val)
  then raise (ValueError (BadDefaultHeight val))
  else props_set "default_height" val.

Definition get_default_format : M value := props_get "default_format" (VStr "png").

Definition set_default_format (val : value) : M unit :=
  match _validate_coerce_format val with
  | Ok val => props_set "default_format" val
  | Raise e => raise e
  end.

Definition get_default_scale : M value := props_get "default_scale" (VInt 1).

Definition set_default_scale (val : value) : M unit :=
  if negb (is_None val) && negb (isinstance_number val)
  then raise (ValueError (BadDefaultScale val))
  else props_set "default_scale" val.

(** [self._constants.get('plotlyjs', None)] *)
Definition get_plotlyjs : M value :=
  ret (VStr (path_join package_dir "plotly.min.js")).

Definition get_topojson : M value :=
  props_get "topojson" (VStr (path_join package_dir "topojson")).

Definition set_topojson (val : value) : M unit :=
  if negb (is_None val) && negb (isinstance_str val)
  then raise (ValueError (BadTopojson val))
  else
    props_set "topojson" val ;;
    (* Server must restart before setting is active *)
    shutdown_orca_server.

Definition get_mathjax : M value :=
  props_get "mathjax"
    (VStr "https://cdnjs.cloudflare.com/ajax/libs/mathjax/2.7.5/MathJax.js").

Definition set_mathjax (val : value) : M unit :=
  if negb (is_None val) && negb (isinstance_str val)
  then raise (ValueError (BadMathjax val))
  else
    props_set "mathjax" val ;;
    (* Server must restart before setting is active *)
    shutdown_orca_server.

Definition get_mapbox_access_token : M value := props_get "mapbox_access_token" VNone.

Definition set_mapbox_access_token (val : value) : M unit :=
  if negb (is_None val) && negb (isinstance_str val)
  then raise (ValueError (BadMapboxAccessToken val))
  else
    props_set "mapbox_access_token" val ;;
    (* Server must restart before setting is active *)
    shutdown_orca_server.

(** [setattr(self, k, v)]: the property setters; [plotlyjs] and
    [config_file] are properties without a setter; any other name is a plain
    instance attribute, which no function of the module reads. *)
Definition setattr (k : string) (v : value) : M unit :=
  if String.eqb k "port" then set_port v
  else if String.eqb k "executable" then set_executable v
  else if String.eqb k "timeout" then set_timeout v
  else if String.eqb k "default_width" then set_default_width v
  else if String.eqb k "default_height" then set_default_height v
  else if String.eqb k "default_format" then set_default_format v
  else if String.eqb k "default_scale" then set_default_scale v
  else if String.eqb k "topojson" then set_topojson v
  else if String.eqb k "mathjax" then set_mathjax v
  else if String.eqb k "mapbox_access_token" then set_mapbox_access_token v
  else if String.eqb k "plotlyjs" || String.eqb k "config_file"
  then raise (AttributeError k)
  else ret tt.

(** A Python [dict] with string keys, in insertion order. *)
Fixpoint dict_set (d : list (string * value)) (k : string) (v : value)
  : list (string * value) :=
  match d with
  | [] => [(k, v)]
  | (k', v') :: d' => if String.eqb k' k then (k, v) :: d'
                      else (k', v') :: dict_set d' k v
  end.

(** [updates.update(kwargs)] *)
Definition dict_update (updates kwargs : list (string * value)) :=
  fold_left (fun acc kv => dict_set acc kv.1 kv.2) kwargs updates.

(** The first argument of [update]: a dict, or something else. *)
Inductive update_arg :=
| ADict (d : list (string * value))
| ANotDict (v : value).

Definition update (d : update_arg) (kwargs : list (string * value)) : M unit :=
  match d with
  | ANotDict _ => raise (ValueError UpdateNotADict)
  | ADict d =>
      let updates := dict_update d kwargs in
      (* Validate keys *)
      for_each updates (fun kv =>
        let* present := gets (fun s => bool_decide (is_Some (config_props s !! kv.1))) in
        if negb present then raise (ValueError (InvalidPropertyName kv.1))
        else ret tt) ;;
      (* Apply keys *)
      for_each updates (fun kv => setattr kv.1 kv.2)
  end.

Definition reload (warn_ : bool) : M unit :=
  let* file := gets config_file in
  match file with
  | FileAbsent =>
      when warn_ (warn "Orca configuration file not found")
  | FileUnreadable =>
      modify (log (EOpenConfig "r")) ;;
      when warn_ (warn "Unable to read orca configuration file")
  | FileText text =>
      modify (log (EOpenConfig "r")) ;;
      match text with
      | NotJson =>
          when warn_ (warn "Orca configuration file is not valid JSON")
      | JsonOther _ => raise (AttributeError "items")
      | JsonObject orca_props =>
          (* Update _props *)
          for_each orca_props (fun kv =>
            (* Only keep properties that we understand *)
            let* known := gets (fun s => bool_decide (is_Some (config_props s !! kv.1))) in
            when known (props_set kv.1 kv.2))
      end
  end.

Definition save : M unit :=
  call (EOpenConfig "w") (open_config_w W) ;;
  let* props := gets config_props in
  modify (set_config_file (FileText (JsonObject (map_to_list props)))).

(** ** Public orca server interaction functions *)

Definition which (cmd : value) : M (option string) :=
  call (EWhich cmd) (fun h => shutil_which W h cmd).

Definition is_CalledProcessError (e : exn) : bool :=
  match e with CalledProcessError => true | _ => false end.

Definition value_is_orca (v : value) : bool :=
  match v with VStr s => String.eqb s "orca" | _ => false end.

Definition validate_orca_executable : M unit :=
  (* Check state *)
  let* st := gets (fun s => st_state (status s)) in
  match st with
  | validated | running => ret tt
  | unvalidated =>
      (* Try to find an executable *)
      let* cfg_executable := get_executable in
      let* executable := which cfg_executable in
      let* executable :=
        match executable with
        | None => if value_is_orca cfg_executable then which (VStr "orca.js")
                  else ret None
        | Some _ => ret executable
        end in
      match executable with
      | None => raise (ValueError (ExecutableNotFound cfg_executable))
      | Some executable =>
          (* Run executable with --help and see if it's our orca *)
          let invalid_executable := ValueError (InvalidExecutable executable) in
          let* help_result :=
            try_except
              (call (ECheckOutput [executable; "--help"])
                    (fun h => check_output W h [executable; "--help"]))
              is_CalledProcessError
              (raise invalid_executable) in
          if String.eqb help_result "" then raise invalid_executable
          else if negb (contains "plotly" (lower help_result))
          then raise invalid_executable
          else
            (* Get orca version *)
            let* orca_version :=
              try_except
                (call (ECheckOutput [executable; "--version"])
                      (fun h => check_output W h [executable; "--version"]))
                is_CalledProcessError
                (raise (ValueError VersionFailed)) in
            if String.eqb orca_version "" then raise (ValueError NoVersionReported)
            else
              modify (set_status (st_set_executable (Some executable))) ;;
              modify (set_status (st_set_version (Some (strip orca_version)))) ;;
              modify (set_status (st_set_state validated))
      end
  end.

Definition _find_open_port : M Z :=
  call EFindOpenPort (getsockname W).

(** The command list of [ensure_orca_server], built as the code builds it:
    a five-element list, extended in place four times. *)
Definition extend_if (v : value) (flag : string) (cmd_list : list value)
  : list value :=
  if truthy v then cmd_list ++ [VStr flag; v] else cmd_list.

Definition build_cmd_list (executable port plotlyjs topojson mathjax token : value)
  : list value :=
  let cmd_list := [executable; VStr "serve"; VStr "-p"; VStr (py_str port);
                   VStr "--graph-only"] in
  let cmd_list := extend_if plotlyjs "--plotly" cmd_list in
  let cmd_list := extend_if topojson "--topojson" cmd_list in
  let cmd_list := extend_if mathjax "--mathjax" cmd_list in
  let cmd_list := extend_if token "--mapbox-access-token" cmd_list in
  cmd_list.

(** The body of [if __orca_state['proc'] is None:] in [ensure_orca_server]. *)
Definition launch_orca_server : M unit :=
  (* Determine server port *)
  let* cfg_port := get_port in
  (if is_None cfg_port
   then let* p := _find_open_port in modify (set_orca_port (Some (VInt p)))
   else modify (set_orca_port (Some cfg_port))) ;;
  let* port := gets (fun s => default VNone (orca_port s)) in
  (* Build orca command list *)
  let* executable := get_executable in
  let* plotlyjs := get_plotlyjs in
  let* topojson := get_topojson in
  let* mathjax := get_mathjax in
  let* token := get_mapbox_access_token in
  let cmd_list := build_cmd_list executable port plotlyjs topojson mathjax token in
  (* Create subprocess that launches the orca server *)
  let* pid := call (EPopen cmd_list) (fun h => Popen W h cmd_list) in
  modify (set_orca_proc (Some pid)) ;;
  (* Update orca.status *)
  modify (set_status (st_set_state running)) ;;
  modify (set_status (st_set_pid (Some pid))) ;;
  modify (set_status (st_set_port port)) ;;
  modify (set_status (st_set_command (Some cmd_list))).

(** The [with __orca_lock:] block of [ensure_orca_server]. *)
Definition ensure_orca_server_locked : M unit :=
  (* Cancel the current shutdown timer, if any *)
  let* t := gets orca_shutdown_timer in
  match t with
  | Some t => modify (log (ETimerCancel t))
  | None => ret tt
  end ;;
  (* Start a new server process if none is active *)
  let* proc := gets orca_proc in
  match proc with
  | Some _ => ret tt
  | None => launch_orca_server
  end ;;
  (* Create new shutdown timer if a timeout was specified *)
  let* timeout := get_timeout in
  if is_None timeout then ret tt
  else
    let t := Timer timeout in
    modify (log (ETimerStart t)) ;;
    modify (set_orca_shutdown_timer (Some t)).

Definition ensure_orca_server : M unit :=
  (* Validate psutil *)
  if negb (psutil W) then raise (ValueError PsutilRequired)
  else
    (* Validate orca executable *)
    let* st := gets (fun s => st_state (status s)) in
    match st with
    | unvalidated => validate_orca_executable
    | _ => ret tt
    end ;;
    ensure_orca_server_locked.

(** ** Image requests *)

(** The body of [_request_image_with_retrying]: one attempt. *)
Definition request_image (kwargs : list (string * value)) : M string :=
  let* port := gets orca_port in
  match port with
  | None => raise (KeyError "port")
  | Some port =>
      let server_url := "http://localhost:" +:+ py_str port in
      let request_params := filter (fun kv => negb (is_None kv.2)) kwargs in
      let* h := gets trace in
      modify (set_clock (fun c => c + Z.max 0 (post_elapsed W h))) ;;
      let* r := call (EPost (server_url +:+ "/") request_params)
                     (fun h => requests_post W h (server_url +:+ "/") request_params) in
      ret (content r)
  end.

Definition wait_random_min : Z := 5.
Definition wait_random_max : Z := 10.
Definition stop_max_delay : Z := 10000.

(** [time.sleep(random.randint(wait_random_min, wait_random_max) / 1000.0)] *)
Definition random_sleep : M unit :=
  let* h := gets trace in
  let ms := Z.max wait_random_min (Z.min wait_random_max (randint W h)) in
  modify (log (ESleep ms)) ;;
  modify (set_clock (fun c => c + ms)).

(** [retrying.Retrying.call] as [@retrying.retry(wait_random_min=5,
    wait_random_max=10, stop_max_delay=10000)] configures it: every exception
    rejects the attempt, no result does; the loop stops once the delay since
    the first attempt has reached [stop_max_delay], re-raising the attempt's
    exception.  [fuel] bounds the number of retries. *)
Fixpoint retrying_call {A} (fuel : nat) (start_time : Z) (fn : M A) : M A :=
  fun s =>
    match fn s with
    | (Ok a, s') => (Ok a, s')
    | (Raise e, s') =>
        let delay_since_first_attempt_ms := clock s' - start_time in
        if stop_max_delay <=? delay_since_first_attempt_ms then (Raise e, s')
        else
          match fuel with
          | O => (Raise e, s')
          | S fuel' => (random_sleep ;; retrying_call fuel' start_time fn) s'
          end
    end.

(** Each retry sleeps at least [wait_random_min] ms, so no more than
    [stop_max_delay / wait_random_min] retries fit in the budget. *)
Definition max_retries : nat := Z.to_nat (stop_max_delay / wait_random_min).

Definition _request_image_with_retrying (kwargs : list (string * value)) : M string :=
  let* start_time := gets clock in
  retrying_call max_retries start_time (request_image kwargs).

Definition or_default (v : value) (getter : M value) : M value :=
  if is_None v then getter else ret v.

Definition to_image (fig format width height scale : value) : M string :=
  (* Make sure orca sever is running *)
  ensure_orca_server ;;
  (* Apply configuration defaults to unspecified arguments *)
  let* format := or_default format get_default_format in
  let* format := (fun s => (_validate_coerce_format format, s)) in
  let* scale := or_default scale get_default_scale in
  let* width := or_default width get_default_width in
  let* height := or_default height get_default_height in
  (* Request image from server *)
  _request_image_with_retrying
    [("figure", fig); ("format", format); ("scale", scale);
     ("width", width); ("height", height)].

(** The last block of [write_image]: [with open(file, 'wb') as f:
    f.write(img_data)] for a path, [file.write(img_data)] for a writeable
    object. *)
Definition write_destination (file : value) (img_data : string) : M unit :=
  if isinstance_str file then
    (* open(file, 'wb') creates the file, or truncates it *)
    call (EOpenWrite (py_str file)) (fun h => open_wb W h (py_str file)) ;;
    modify (set_files (insert (py_str file) "")) ;;
    (* f.write(img_data), and the close on the way out of the with block *)
    let* h := gets trace in
    modify (set_files (insert (py_str file)
              match file_write W h (py_str file) img_data with
              | Ok _ => img_data
              | Raise _ => file_left W h (py_str file) img_data
              end)) ;;
    call (EFileWrite (py_str file)) (fun h => file_write W h (py_str file) img_data)
  else
    (* whatever the object does with the bytes *)
    let* h := gets trace in
    modify (set_files (object_files W h file img_data)) ;;
    call (EObjectWrite file) (fun h => object_write W h file img_data).

Definition write_image (fig file format scale width height : value) : M unit :=
  (* Check if file is a string *)
  let file_is_str := isinstance_str file in
  (* Infer format if not specified *)
  let* format :=
    if file_is_str && is_None format then
      let ext := (splitext (py_str file)).2 in
      if negb (String.eqb ext "") then (fun s => (_validate_coerce_format (VStr ext), s))
      else raise (ValueError (CannotInferImageType (py_str file)))
    else ret format in
  (* Request image: do this first so we don't create a file if image
     conversion fails *)
  let* img_data := to_image fig format width height scale in
  (* Open file *)
  write_destination file img_data.

End Orca.

(** ** Module import: the initial state *)

Definition initial_status : OrcaStatus :=
  mkStatus unvalidated None None None VNone None.

(** [config = OrcaConfig()], [status = OrcaStatus()] and the fresh
    [__orca_state], with whatever is on disk. *)
Definition initial_state (on_disk : config_file_content) : state :=
  mkState ∅ initial_status None None None on_disk ∅ 0 [].

(** ** The specification's wording, for comparison *)

(** Case-fold, strip one leading dot, map the alias [jpg] to [jpeg], and
    accept the result when it is one of the supported formats. *)
Definition spec_normalize_format (s : string) : option string :=
  let s := lower s in
  let s := strip_dot s in
  let s := if String.eqb s "jpg" then "jpeg" else s in
  if bool_decide (s ∈ valid_formats) then Some s else None.

(** [<flag> <value>] when the value is set and not empty, nothing otherwise. *)
Definition optional_pair (flag : string) (v : value) : list value :=
  if truthy v then [VStr flag; v] else [].

(** [<executable> serve -p <port> --graph-only [--plotly <path>]
    [--topojson <path>] [--mathjax <path>] [--mapbox-access-token <token>]] *)
Definition spec_launch_command
    (executable port plotlyjs topojson mathjax token : value) : list value :=
  [executable; VStr "serve"; VStr "-p"; VStr (py_str port); VStr "--graph-only"]
    ++ optional_pair "--plotly" plotlyjs
    ++ optional_pair "--topojson" topojson
    ++ optional_pair "--mathjax" mathjax
    ++ optional_pair "--mapbox-access-token" token.

(** ** Notions used by the properties *)

(** Every run of [m] takes a state to one related to it by [R], whether it
    returns or raises. *)
Definition steps (R : state -> state -> Prop) {A} (m : M A) : Prop :=
  forall s, R s (m s).2.

Definition is_post (e : event) : bool :=
  match e with EPost _ _ => true | _ => false end.

Definition is_popen (e : event) : bool :=
  match e with EPopen _ => true | _ => false end.

(** [s'] follows [s] and no request was sent to the server in between. *)
Definition no_request (s s' : state) : Prop :=
  exists l, trace s' = (trace s ++ l)%list /\ forallb (fun e => negb (is_post e)) l = true.

(** [s'] differs from [s] in the status and the history at most. *)
Definition status_only (s s' : state) : Prop :=
  config_props s' = config_props s /\ orca_proc s' = orca_proc s /\
  orca_shutdown_timer s' = orca_shutdown_timer s /\ orca_port s' = orca_port s /\
  config_file s' = config_file s /\ files s' = files s /\ clock s' = clock s.

(** [s'] has the process table and the status of [s]. *)
Definition server_untouched (s s' : state) : Prop :=
  status s' = status s /\ orca_proc s' = orca_proc s /\
  orca_shutdown_timer s' = orca_shutdown_timer s /\ orca_port s' = orca_port s /\
  trace s' = trace s.

(** [s] with the calls [l] added to its history. *)
Definition extend (l : list event) (s : state) : state :=
  mkState (config_props s) (status s) (orca_proc s) (orca_shutdown_timer s)
          (orca_port s) (config_file s) (files s) (clock s) (trace s ++ l).

(** [s'] is [s] with a longer history. *)
Definition history_only (s s' : state) : Prop := exists l, s' = extend l s.

(** [s'] is [s] after its server has been stopped: no process handle, no
    timer, no port, and a status back at [validated] that keeps only the
    executable and its version. *)
Definition stopped (s s' : state) : Prop :=
  orca_proc s' = None /\ orca_shutdown_timer s' = None /\
  orca_port s' = Some VNone /\
  status s' = mkStatus validated (st_executable (status s))
                       (st_version (status s)) None VNone None /\
  config_props s' = config_props s /\ config_file s' = config_file s /\
  files s' = files s /\ clock s' = clock s.

Definition is_find_open_port (e : event) : bool :=
  match e with EFindOpenPort => true | _ => false end.

(** How often [Popen] was called, and how often a port was picked. *)
Definition launches (s : state) : nat := length (filter is_popen (trace s)).
Definition port_picks (s : state) : nat := length (filter is_find_open_port (trace s)).
Definition posts (s : state) : nat := length (filter is_post (trace s)).

(** From [s] to [s'], at most [n] launches and at most [n] port picks. *)
Definition at_most (n : nat) (s s' : state) : Prop :=
  (launches s' <= launches s + n /\ port_picks s' <= port_picks s + n)%nat.

(** The URL and the JSON parameters of an image request. *)
Definition request_url (port : value) : string :=
  ("http://localhost:" +:+ py_str port) +:+ "/".

Definition request_params (kwargs : list (string * value)) : list (string * value) :=
  filter (fun kv => negb (is_None kv.2)) kwargs.

(** The state once a post has been made from [s]. *)
Definition after_post (W : World) (kwargs : list (string * value)) (port : value)
    (s : state) : state :=
  log (EPost (request_url port) (request_params kwargs))
      (set_clock (fun c => c + Z.max 0 (post_elapsed W (trace s))) s).

(** [s'] has the status and the process handle of [s]. *)
Definition core_same (s s' : state) : Prop :=
  status s' = status s /\ orca_proc s' = orca_proc s.

(** [m] keeps the property [P] of states, whether it returns or raises. *)
Definition keeps (P : state -> Prop) {A} (m : M A) : Prop :=
  forall s, P s -> P (m s).2.

(** Time does not run backwards. *)
Definition later (s s' : state) : Prop := clock s <= clock s'.

(** The status says [running] exactly when there is a process handle. *)
Definition consistent (s : state) : Prop :=
  st_state (status s) = running <-> is_Some (orca_proc s).

(** The process-management calls of [shutdown_orca_server] do not raise. *)
Definition teardown_succeeds (W : World) : Prop :=
  (forall h pid, exists kids, children W h pid = Ok kids) /\
  (forall h child, child_terminate W h child = Ok tt) /\
  (forall h pid, proc_terminate W h pid = Ok tt) /\
  (forall h pid, proc_communicate W h pid = Ok tt) /\
  (forall h pid, proc_wait W h pid = Ok tt).

(** The configuration as the getters report it. *)
Definition config_value (s : state) (k : string) (default : value) : value :=
  match config_props s !! k with Some v => v | None => default end.

Definition default_topojson (W : World) : value :=
  VStr (path_join (package_dir W) "topojson").

Definition default_mathjax : value :=
  VStr "https://cdnjs.cloudflare.com/ajax/libs/mathjax/2.7.5/MathJax.js".

Definition plotlyjs (W : World) : value :=
  VStr (path_join (package_dir W) "plotly.min.js").

(** The command the specification prescribes for the configuration of [s]
    and the port [port]. *)
Definition spec_command_of (W : World) (s : state) (port : value) : list value :=
  spec_launch_command
    (config_value s "executable" (VStr "orca")) port (plotlyjs W)
    (config_value s "topojson" (default_topojson W))
    (config_value s "mathjax" default_mathjax)
    (config_value s "mapbox_access_token" VNone).

(** The public operations of the module. *)
Inductive operation :=
| SetPort (val : value)
| SetExecutable (val : value)
| SetTimeout (val : value)
| SetDefaultWidth (val : value)
| SetDefaultHeight (val : value)
| SetDefaultFormat (val : value)
| SetDefaultScale (val : value)
| SetTopojson (val : value)
| SetMathjax (val : value)
| SetMapboxAccessToken (val : value)
| Update (d : update_arg) (kwargs : list (string * value))
| RestoreDefaults (reset_server : bool)
| Reload (warn_ : bool)
| Save
| ValidateOrcaExecutable
| ResetOrcaStatus
| ShutdownOrcaServer
| EnsureOrcaServer
| ToImage (fig format width height scale : value)
| WriteImage (fig file format scale width height : value).

Definition discard {A} (m : M A) : state -> state := fun s => (m s).2.

Definition run (W : World) (op : operation) : state -> state :=
  match op with
  | SetPort v => discard (set_port v)
  | SetExecutable v => discard (set_executable W v)
  | SetTimeout v => discard (set_timeout v)
  | SetDefaultWidth v => discard (set_default_width v)
  | SetDefaultHeight v => discard (set_default_height v)
  | SetDefaultFormat v => discard (set_default_format v)
  | SetDefaultScale v => discard (set_default_scale v)
  | SetTopojson v => discard (set_topojson W v)
  | SetMathjax v => discard (set_mathjax W v)
  | SetMapboxAccessToken v => discard (set_mapbox_access_token W v)
  | Update d kwargs => discard (update W d kwargs)
  | RestoreDefaults b => discard (restore_defaults W b)
  | Reload b => discard (reload b)
  | Save => discard (save W)
  | ValidateOrcaExecutable => discard (validate_orca_executable W)
  | ResetOrcaStatus => discard (reset_orca_status W)
  | ShutdownOrcaServer => discard (shutdown_orca_server W)
  | EnsureOrcaServer => discard (ensure_orca_server W)
  | ToImage fig format width height scale =>
      discard (to_image W fig format width height scale)
  | WriteImage fig file format scale width height =>
      discard (write_image W fig file format scale width height)
  end.

(** The states of a session: the module is imported, then its operations
    are called in any order, with any arguments. *)
Inductive reachable (W : World) : state -> Prop :=
| reachable_initial on_disk : reachable W (initial_state on_disk)
| reachable_run op s : reachable W s -> reachable W (run W op s).

(** A world in which everything works: orca is installed, ports are free,
    processes start and stop, and the server answers [post_answer]. *)
Definition working_world (popen_answer : result Z)
    (post_answer : list event -> result response) : World :=
  mkWorld true "/opt/plotly"
    (fun _ _ => Ok (Some "/usr/bin/orca"))
    (fun _ args => if bool_decide (args = ["/usr/bin/orca"; "--help"])
                   then Ok "Plotly's image-exporting utilities"
                   else Ok "1.1.1 ")
    (fun _ => Ok 5000)
    (fun _ _ => popen_answer)
    (fun _ _ => Ok [4243])
    (fun _ _ => Ok tt) (fun _ _ => Ok tt) (fun _ _ => Ok tt) (fun _ _ => Ok tt)
    (fun h _ _ => post_answer h)
    (fun _ => 3)
    (fun _ => 7)
    (fun _ => Ok tt)
    (fun _ _ => Ok tt)
    (fun _ _ _ => Ok tt)
    (fun _ _ _ => Ok tt)
    (fun _ _ _ => "")
    (fun _ _ _ files => files).

Definition png_bytes : string := "PNG...".

Definition good_world : World :=
  working_world (Ok 4242) (fun _ => Ok (Response 200 png_bytes)).

(** Worlds for the failure cases: [Popen] raises; the server answers with
    an error page; the first post raises inside [json.dumps] and the second
    goes through. *)
Definition no_spawn_world : World :=
  working_world (Raise (External "OSError")) (fun _ => Ok (Response 200 png_bytes)).

Definition error_page : string := "500 Internal Server Error".

Definition error_world : World :=
  working_world (Ok 4242) (fun _ => Ok (Response 500 error_page)).

Definition flaky_world : World :=
  working_world (Ok 4242)
    (fun h => if existsb is_post h then Ok (Response 200 png_bytes)
              else Raise (External "TypeError")).

(** A session in which the six scalar properties have been assigned, and
    the same session once saved. *)
Definition assigned_session : state :=
  fold_left (fun s op => run good_world op s)
    [SetPort (VInt 8080); SetTimeout (VInt 30); SetDefaultFormat (VStr "svg");
     SetDefaultWidth (VInt 640); SetDefaultHeight (VInt 480);
     SetDefaultScale (VInt 2)]
    (initial_state FileAbsent).

Definition saved_session : state := run good_world Save assigned_session.

(** A session in which the server has been started. *)
Definition running_state (W : World) : state :=
  run W EnsureOrcaServer (initial_state FileAbsent).

(** ** What the status promises *)

(** [s'] has the status, the process handle and the port of [s]. *)
Definition table_same (s s' : state) : Prop :=
  status s' = status s /\ orca_proc s' = orca_proc s /\ orca_port s' = orca_port s.

(** The docstrings of [OrcaStatus], as a property of a state: [executable]
    and [version] are [None] exactly in the state [unvalidated]; [pid],
    [port] and [command] are [None] unless the state is [running]; and in
    the state [running] there is a process, the status shows its pid and
    the port of the process table, and that port is the [-p] argument of the
    recorded command. *)
Definition coherent (s : state) : Prop :=
  let t := status s in
  match st_state t with
  | unvalidated =>
      st_executable t = None /\ st_version t = None /\ st_pid t = None /\
      st_port t = VNone /\ st_command t = None /\ orca_proc s = None
  | validated =>
      is_Some (st_executable t) /\ is_Some (st_version t) /\ st_pid t = None /\
      st_port t = VNone /\ st_command t = None /\ orca_proc s = None
  | running =>
      is_Some (st_executable t) /\ is_Some (st_version t) /\
      is_Some (orca_proc s) /\ st_pid t = orca_proc s /\
      orca_port s = Some (st_port t) /\ is_None (st_port t) = false /\
      exists cmd_list, st_command t = Some cmd_list /\
                       cmd_list !! 3%nat = Some (VStr (py_str (st_port t)))
  end.

(** A world in which psutil no longer finds the server process. *)
Definition stuck_world : World :=
  mkWorld true "/opt/plotly"
    (fun _ _ => Ok (Some "/usr/bin/orca"))
    (fun _ args => if bool_decide (args = ["/usr/bin/orca"; "--help"])
                   then Ok "Plotly's image-exporting utilities"
                   else Ok "1.1.1 ")
    (fun _ => Ok 5000)
    (fun _ _ => Ok 4242)
    (fun _ _ => Raise (External "NoSuchProcess"))
    (fun _ _ => Ok tt) (fun _ _ => Ok tt) (fun _ _ => Ok tt) (fun _ _ => Ok tt)
    (fun _ _ _ => Ok (Response 200 png_bytes))
    (fun _ => 3) (fun _ => 7)
    (fun _ => Ok tt) (fun _ _ => Ok tt) (fun _ _ _ => Ok tt)
    (fun _ _ _ => Ok tt) (fun _ _ _ => "") (fun _ _ _ files => files).

(** A world without orca on the search path, and one where only the npm
    name [orca.js] is found. *)
Definition world_with_which (found : value -> option string) : World :=
  mkWorld true "/opt/plotly"
    (fun _ cmd => Ok (found cmd))
    (fun _ args => match args with
                   | [_; "--help"] => Ok "Plotly's image-exporting utilities"
                   | _ => Ok "1.1.1 "
                   end)
    (fun _ => Ok 5000)
    (fun _ _ => Ok 4242)
    (fun _ _ => Ok [])
    (fun _ _ => Ok tt) (fun _ _ => Ok tt) (fun _ _ => Ok tt) (fun _ _ => Ok tt)
    (fun _ _ _ => Ok (Response 200 png_bytes))
    (fun _ => 3) (fun _ => 7)
    (fun _ => Ok tt) (fun _ _ => Ok tt) (fun _ _ _ => Ok tt)
    (fun _ _ _ => Ok tt) (fun _ _ _ => "") (fun _ _ _ files => files).

Definition no_orca_world : World := world_with_which (fun _ => None).

Definition npm_world : World :=
  world_with_which (fun cmd => match cmd with
                               | VStr "orca.js" => Some "/usr/lib/node_modules/.bin/orca.js"
                               | _ => None
                               end).

(** The calls [shutdown_orca_server] makes for the process [pid] with the
    children [kids] and the timer [t]. *)
Definition shutdown_calls (pid : Z) (kids : list Z) (t : option timer) : list event :=
  EChildren pid :: map EChildTerminate kids
    ++ [ETerminate pid; ECommunicate pid; EWait pid]
    ++ match t with Some t => [ETimerCancel t] | None => [] end.

(** What the loop of [reload] makes of [_props], given the items of the
    file: each item whose key is in the map replaces the value there. *)
Definition reloaded_props (props : gmap string value) (items : list (string * value))
  : gmap string value :=
  foldl (fun p kv => if bool_decide (is_Some (p !! kv.1)) then <[kv.1 := kv.2]> p else p)
        props items.

(** A world in which the server never accepts a connection: the process
    is started, but the port it was given is taken by the time it binds,
    and every request is refused. *)
Definition down_world : World :=
  working_world (Ok 4242) (fun _ => Raise (External "ConnectionError")).

(** The keyword arguments [to_image] passes to the request, with the
    defaults of the configuration of [s] for what the caller left out. *)
Definition image_kwargs (s : state) (fig format width height scale : value)
  : list (string * value) :=
  [("figure", fig); ("format", format);
   ("scale", if is_None scale then config_value s "default_scale" (VInt 1) else scale);
   ("width", if is_None width then config_value s "default_width" VNone else width);
   ("height", if is_None height then config_value s "default_height" VNone else height)].

(** The calls that open or write a destination of [write_image]. *)
Definition is_write (e : event) : bool :=
  match e with
  | EOpenWrite _ | EFileWrite _ | EObjectWrite _ => true
  | _ => false
  end.

(** [s'] follows [s] with the files of [s], and no destination was opened
    or written in between. *)
Definition unwritten (s s' : state) : Prop :=
  files s' = files s /\
  exists l, trace s' = (trace s ++ l)%list /\
            forallb (fun e => negb (is_write e)) l = true.

(** [s'] follows [s], and every request sent in between carries the
    parameter [kv]. *)
Definition posts_carry (kv : string * value) (s s' : state) : Prop :=
  exists l, trace s' = (trace s ++ l)%list /\
            Forall (fun e => match e with
                             | EPost _ request_params => kv ∈ request_params
                             | _ => True
                             end) l.


(** Worlds for the destinations of [write_image]: the disk is full, so that
    the write fails and leaves an empty file; and the writeable object is a
    file opened on [path], to which the bytes are appended. *)
Definition disk_full_world : World :=
  mkWorld true "/opt/plotly"
    (fun _ _ => Ok (Some "/usr/bin/orca"))
    (fun _ args => if bool_decide (args = ["/usr/bin/orca"; "--help"])
                   then Ok "Plotly's image-exporting utilities"
                   else Ok "1.1.1 ")
    (fun _ => Ok 5000)
    (fun _ _ => Ok 4242)
    (fun _ _ => Ok [4243])
    (fun _ _ => Ok tt) (fun _ _ => Ok tt) (fun _ _ => Ok tt) (fun _ _ => Ok tt)
    (fun _ _ _ => Ok (Response 200 png_bytes))
    (fun _ => 3) (fun _ => 7)
    (fun _ => Ok tt) (fun _ _ => Ok tt) (fun _ _ _ => Ok tt)
    (fun _ _ _ => Raise (External "OSError")) (fun _ _ _ => "")
    (fun _ _ _ files => files).

Definition open_file_world (path : string) : World :=
  mkWorld true "/opt/plotly"
    (fun _ _ => Ok (Some "/usr/bin/orca"))
    (fun _ args => if bool_decide (args = ["/usr/bin/orca"; "--help"])
                   then Ok "Plotly's image-exporting utilities"
                   else Ok "1.1.1 ")
    (fun _ => Ok 5000)
    (fun _ _ => Ok 4242)
    (fun _ _ => Ok [4243])
    (fun _ _ => Ok tt) (fun _ _ => Ok tt) (fun _ _ => Ok tt) (fun _ _ => Ok tt)
    (fun _ _ _ => Ok (Response 200 png_bytes))
    (fun _ => 3) (fun _ => 7)
    (fun _ => Ok tt) (fun _ _ => Ok tt) (fun _ _ _ => Ok tt)
    (fun _ _ _ => Ok tt) (fun _ _ _ => "")
    (fun _ _ img_data files =>
       <[path := default "" (files !! path) +:+ img_data]> files).

(** ** [which_py2]: the backport of [shutil.which] *)

(** What [which_py2] reads outside its arguments: the platform
    ([sys.platform], [os.pathsep], [os.curdir], [os.defpath]), the [os.path]
    functions of that platform, the environment and the file system. *)
Record Os := mkOs {
  win32 : bool;                          (* sys.platform == "win32" *)
  pathsep : ascii;
  curdir : string;
  defpath : string;
  os_path_dirname : string -> string;
  os_path_join : string -> string -> string;
  os_path_normcase : string -> string;
  environ_get : string -> option string; (* os.environ.get(name) *)
  os_path_exists : string -> bool;
  os_access : string -> Z -> bool;
  os_path_isdir : string -> bool }.

Definition F_OK : Z := 0.
Definition X_OK : Z := 1.

(** [s.split(sep)] for a one-character separator. *)
Fixpoint split_on (sep : ascii) (s : string) : list string :=
  match s with
  | EmptyString => [EmptyString]
  | String c r =>
      if Ascii.eqb c sep then EmptyString :: split_on sep r
      else match split_on sep r with
           | h :: t => String c h :: t
           | [] => [String c EmptyString]
           end
  end.

(** [s.endswith(suffix)] *)
Definition ends_with (s suffix : string) : bool :=
  (String.length suffix <=? String.length s)%nat
  && String.eqb (String.substring (String.length s - String.length suffix)
                                  (String.length suffix) s) suffix.

(** The nested function of [which_py2]. *)
Definition _access_check (os : Os) (fn : string) (mode : Z) : bool :=
  os_path_exists os fn && os_access os fn mode && negb (os_path_isdir os fn).

(** [for thefile in files:] with its early [return name]. *)
Fixpoint search_files (os : Os) (mode : Z) (dir : string) (files : list string)
  : option string :=
  match files with
  | [] => None
  | thefile :: files' =>
      let name := os_path_join os dir thefile in
      if _access_check os name mode then Some name
      else search_files os mode dir files'
  end.

(** [for dir in path:] with the set [seen] of directories already tried. *)
Fixpoint search_path (os : Os) (mode : Z) (files path : list string)
    (seen : gset string) : option string :=
  match path with
  | [] => None
  | dir :: path' =>
      let normdir := os_path_normcase os dir in
      if bool_decide (normdir ∈ seen) then search_path os mode files path' seen
      else
        match search_files os mode dir files with
        | Some name => Some name
        | None => search_path os mode files path' ({[normdir]} ∪ seen)
        end
  end.

(** The list [path] and the list [files] that the search runs over. *)
Definition search_lists (os : Os) (cmd path : string) : list string * list string :=
  let path := split_on (pathsep os) path in
  if win32 os then
    (* The current directory takes precedence on Windows. *)
    let path := if bool_decide (curdir os ∈ path) then path else curdir os :: path in
    (* PATHEXT is necessary to check on Windows. *)
    let pathext := split_on (pathsep os) (default "" (environ_get os "PATHEXT")) in
    if existsb (fun ext => ends_with (lower cmd) (lower ext)) pathext
    then (path, [cmd])
    else (path, map (fun ext => cmd +:+ ext) pathext)
  else (path, [cmd]).

Definition which_py2 (os : Os) (cmd : string) (mode : Z) (path : option string)
  : option string :=
  (* If we're given a path with a directory part, look it up directly *)
  if negb (String.eqb (os_path_dirname os cmd) "") then
    if _access_check os cmd mode then Some cmd else None
  else
    let path := match path with
                | None => default (defpath os) (environ_get os "PATH")
                | Some path => path
                end in
    if String.eqb path "" then None
    else
      let '(path, files) := search_lists os cmd path in
      search_path os mode files path ∅.

(** [posixpath.dirname] *)
Fixpoint all_sep (s : string) : bool :=
  match s with
  | EmptyString => true
  | String c r => Ascii.eqb c "/" && all_sep r
  end.

Fixpoint rstrip_sep (s : string) : string :=
  match s with
  | EmptyString => EmptyString
  | String c r =>
      match rstrip_sep r with
      | EmptyString => if Ascii.eqb c "/" then EmptyString else String c EmptyString
      | r' => String c r'
      end
  end.

Definition posix_dirname (p : string) : string :=
  let i := match rfind "/" p with Some i => S i | None => O end in
  let head := String.substring 0 i p in
  if negb (String.eqb head "") && negb (all_sep head) then rstrip_sep head else head.

(** A POSIX platform over an environment and a file system. *)
Definition posix (env : string -> option string) (exists_ : string -> bool)
    (access : string -> Z -> bool) (isdir : string -> bool) : Os :=
  mkOs false ":" "." "/bin:/usr/bin" posix_dirname path_join (fun p => p)
       env exists_ access isdir.

(** A file system with an orca in [/usr/local/bin] and a directory of the
    same name in [/opt/bin], and a PATH that lists [/opt/bin] twice. *)
Definition sample_os : Os :=
  posix (fun name => if String.eqb name "PATH"
                     then Some "/opt/bin:/opt/bin:/usr/local/bin:/usr/bin" else None)
        (fun fn => String.eqb fn "/usr/local/bin/orca" || String.eqb fn "/opt/bin/orca"
                   || String.eqb fn "/usr/bin/orca")
        (fun fn mode => true)
        (fun fn => String.eqb fn "/opt/bin/orca").

(** * Properties *)

(** ** Strings and formats *)

Example splitext_png : splitext "out.png" = ("out", ".png").
Proof. vm_compute. reflexivity. Qed.

Example splitext_hidden : splitext "a.b/.bashrc" = ("a.b/.bashrc", "").
Proof. vm_compute. reflexivity. Qed.

Example splitext_dots : splitext "dir/..x.tar.gz" = ("dir/..x.tar", ".gz").
Proof. vm_compute. reflexivity. Qed.

Example splitext_trailing_dot : splitext "out." = ("out", ".").
Proof. vm_compute. reflexivity. Qed.

Example str_int : py_str (VInt (-120)) = "-120" /\ py_str (VInt 0) = "0".
Proof. vm_compute. split; reflexivity. Qed.

Example strip_version : strip (" 1.1.1" +:+ String "010" "") = "1.1.1".
Proof. vm_compute. reflexivity. Qed.

Lemma format_conversions_lookup (x : string) :
  _format_conversions !! x =
    if bool_decide (x = "jpg") then Some "jpeg"
    else if bool_decide (x ∈ valid_formats) then Some x else None.
Proof.
  unfold _format_conversions, valid_formats. simpl.
  rewrite !lookup_insert, lookup_empty.
  repeat case_decide; subst;
    try (vm_compute; reflexivity); try congruence;
    exfalso; rewrite ?list_elem_of_In in *; simpl in *; intuition congruence.
Qed.

(** ** Computations and the relations they keep *)

Section Steps.
Context (R : state -> state -> Prop) `{!Reflexive R} `{!Transitive R}.

Lemma steps_ret {A} (a : A) : steps R (ret a).
Proof. intros s. simpl. reflexivity. Qed.

Lemma steps_raise {A} (e : exn) : steps R (@raise A e).
Proof. intros s. simpl. reflexivity. Qed.

Lemma steps_gets {A} (f : state -> A) : steps R (gets f).
Proof. intros s. simpl. reflexivity. Qed.

Lemma steps_pure {A} (r : result A) : steps R (fun s => (r, s)).
Proof. intros s. simpl. reflexivity. Qed.

Lemma steps_bind {A B} (m : M A) (k : A -> M B) :
  steps R m -> (forall a, steps R (k a)) -> steps R (bind m k).
Proof.
  intros Hm Hk s. unfold bind. specialize (Hm s).
  destruct (m s) as [[a | e] s1]; simpl in *.
  - etransitivity; [exact Hm | apply Hk].
  - exact Hm.
Qed.

Lemma steps_modify (f : state -> state) :
  (forall s, R s (f s)) -> steps R (modify f).
Proof. intros Hf s. apply Hf. Qed.

Lemma steps_call {A} (e : event) (answer : list event -> result A) :
  (forall s, R s (log e s)) -> steps R (call e answer).
Proof. intros He s. apply He. Qed.

Lemma steps_try_except {A} (m : M A) (catches : exn -> bool) (h : M A) :
  steps R m -> steps R h -> steps R (try_except m catches h).
Proof.
  intros Hm Hh s. unfold try_except. specialize (Hm s).
  destruct (m s) as [[a | e] s1]; simpl in *; [exact Hm |].
  destruct (catches e); [| exact Hm].
  etransitivity; [exact Hm | apply Hh].
Qed.

Lemma steps_when (b : bool) (m : M unit) : steps R m -> steps R (when b m).
Proof. intros Hm. destruct b; [exact Hm | apply steps_ret]. Qed.

Lemma steps_for_each {A} (l : list A) (body : A -> M unit) :
  (forall x, steps R (body x)) -> steps R (for_each l body).
Proof.
  intros Hbody. induction l as [| x l IH]; simpl.
  - apply steps_ret.
  - apply steps_bind; [apply Hbody | intros _; exact IH].
Qed.

Lemma steps_retrying_call {A} W (fuel : nat) (start_time : Z) (fn : M A) :
  steps R fn -> steps R (random_sleep W) ->
  steps R (retrying_call W fuel start_time fn).
Proof.
  intros Hfn Hsleep. induction fuel as [| fuel IH]; intros s; simpl;
    specialize (Hfn s); destruct (fn s) as [[a | e] s1]; simpl in *;
    try exact Hfn; destruct (stop_max_delay <=? _); try exact Hfn.
  etransitivity; [exact Hfn |].
  apply (steps_bind (random_sleep W) (fun _ => retrying_call W fuel start_time fn));
    [exact Hsleep | intros _; exact IH].
Qed.

End Steps.

(** Peels a computation down to its [modify] and [call] steps. *)
Ltac steps_structure :=
  repeat match goal with
    | |- Reflexive _ => typeclasses eauto
    | |- Transitive _ => typeclasses eauto
    | |- forall _, _ => intros ?
    | |- steps _ (ret _) => apply steps_ret
    | |- steps _ (raise _) => apply steps_raise
    | |- steps _ (gets _) => apply steps_gets
    | |- steps _ (fun s => (_, s)) => apply steps_pure
    | |- steps _ (bind _ _) => apply steps_bind
    | |- steps _ (when _ _) => apply steps_when
    | |- steps _ (try_except _ _ _) => apply steps_try_except
    | |- steps _ (for_each _ _) => apply steps_for_each
    | |- steps _ (match ?x with _ => _ end) => destruct x
    end.

#[local] Instance no_request_refl : Reflexive no_request.
Proof. intros s. exists []. split; [symmetry; apply app_nil_r | reflexivity]. Qed.

#[local] Instance no_request_trans : Transitive no_request.
Proof.
  intros s1 s2 s3 [l1 [H1 F1]] [l2 [H2 F2]]. exists (l1 ++ l2)%list. split.
  - rewrite H2, H1. symmetry. apply app_assoc.
  - rewrite forallb_app, F1, F2. reflexivity.
Qed.

#[local] Instance status_only_refl : Reflexive status_only.
Proof. intros s. unfold status_only. tauto. Qed.

#[local] Instance status_only_trans : Transitive status_only.
Proof. intros s1 s2 s3. unfold status_only. intuition congruence. Qed.

#[local] Instance server_untouched_refl : Reflexive server_untouched.
Proof. intros s. unfold server_untouched. tauto. Qed.

#[local] Instance server_untouched_trans : Transitive server_untouched.
Proof. intros s1 s2 s3. unfold server_untouched. intuition congruence. Qed.

#[local] Instance later_refl : Reflexive later.
Proof. intros s. unfold later. lia. Qed.

#[local] Instance later_trans : Transitive later.
Proof. intros s1 s2 s3. unfold later. lia. Qed.

Lemma no_request_same_trace (s s' : state) : trace s' = trace s -> no_request s s'.
Proof. intros H. exists []. rewrite H. split; [symmetry; apply app_nil_r | reflexivity]. Qed.

Lemma no_request_log (e : event) (s : state) : is_post e = false -> no_request s (log e s).
Proof. intros H. exists [e]. simpl. rewrite H. split; reflexivity. Qed.

(** Closes the side conditions of [steps no_request]. *)
Ltac no_request_step :=
  first [ apply steps_modify; intros ?;
          first [ apply no_request_log; reflexivity
                | apply no_request_same_trace; reflexivity ]
        | apply steps_call; intros ?; apply no_request_log; reflexivity ].

Lemma shutdown_no_request W : steps no_request (shutdown_orca_server W).
Proof.
  unfold shutdown_orca_server, terminate_process_tree, clear_process_state.
  steps_structure; no_request_step.
Qed.

Lemma validate_no_request W : steps no_request (validate_orca_executable W).
Proof.
  unfold validate_orca_executable, get_executable, props_get, which.
  steps_structure; no_request_step.
Qed.

Lemma ensure_no_request W : steps no_request (ensure_orca_server W).
Proof.
  unfold ensure_orca_server, ensure_orca_server_locked, launch_orca_server,
    get_port, get_executable, get_plotlyjs, get_topojson, get_mathjax,
    get_mapbox_access_token, get_timeout, props_get, _find_open_port.
  steps_structure; try apply validate_no_request; no_request_step.
Qed.

Lemma extend_nil (s : state) : extend [] s = s.
Proof. destruct s. unfold extend. simpl. by rewrite app_nil_r. Qed.

Lemma extend_extend (l1 l2 : list event) (s : state) :
  extend l2 (extend l1 s) = extend (l1 ++ l2) s.
Proof. unfold extend. simpl. by rewrite app_assoc. Qed.

Lemma extend_log (e : event) (l : list event) (s : state) :
  extend l (log e s) = extend (e :: l) s.
Proof. unfold extend, log. simpl. by rewrite <- app_assoc. Qed.

#[local] Instance history_only_refl : Reflexive history_only.
Proof. intros s. exists []. symmetry. apply extend_nil. Qed.

#[local] Instance history_only_trans : Transitive history_only.
Proof.
  intros s1 s2 s3 [l1 ->] [l2 ->]. exists (l1 ++ l2)%list. apply extend_extend.
Qed.

Lemma history_only_log (e : event) (s : state) : history_only s (log e s).
Proof. exists [e]. reflexivity. Qed.

(** ** Shutdown *)

Lemma terminate_process_tree_history W pid :
  steps history_only (terminate_process_tree W pid).
Proof.
  unfold terminate_process_tree.
  steps_structure; apply steps_call; intros ?; apply history_only_log.
Qed.

Lemma terminate_children_ok W (kids : list Z) (s : state) :
  (forall h child, child_terminate W h child = Ok tt) ->
  exists l, for_each kids (fun child =>
      call (EChildTerminate child) (fun h => child_terminate W h child)) s
    = (Ok tt, extend l s).
Proof.
  intros Hok. revert s. induction kids as [| k kids IH]; intros s.
  - exists []. simpl. unfold ret. by rewrite extend_nil.
  - simpl. unfold bind at 1. unfold call at 1. rewrite Hok.
    destruct (IH (log (EChildTerminate k) s)) as [l Hl]. rewrite Hl.
    exists (EChildTerminate k :: l). by rewrite extend_log.
Qed.

Lemma terminate_process_tree_ok W pid (s : state) :
  teardown_succeeds W ->
  exists l, terminate_process_tree W pid s = (Ok tt, extend l s).
Proof.
  intros (Hkids & Hchild & Hterm & Hcomm & Hwait).
  unfold terminate_process_tree.
  destruct (Hkids (trace s) pid) as [kids Hk].
  unfold bind at 1. unfold call at 1. rewrite Hk.
  unfold bind at 1.
  destruct (terminate_children_ok W kids (log (EChildren pid) s) Hchild) as [l ->].
  unfold bind, call. rewrite Hterm, Hcomm, Hwait.
  eexists. rewrite extend_log. unfold log, extend. simpl.
  rewrite <- !app_assoc. reflexivity.
Qed.

Lemma clear_process_state_stops (s : state) :
  exists s', clear_process_state s = (Ok tt, s') /\ stopped s s'.
Proof.
  unfold clear_process_state, bind, gets, modify, ret. simpl.
  destruct (orca_shutdown_timer s) eqn:Ht; simpl; eexists;
    (split; [reflexivity |]); unfold stopped; simpl; repeat split;
    first [reflexivity | exact Ht].
Qed.

Lemma stopped_extend (l : list event) (s s' : state) :
  stopped (extend l s) s' -> stopped s s'.
Proof. unfold stopped. simpl. tauto. Qed.

(** With a live process and process-management calls that work, shutdown
    returns and the server is stopped. *)
Lemma shutdown_stops W pid (s : state) :
  teardown_succeeds W -> orca_proc s = Some pid ->
  exists s', shutdown_orca_server W s = (Ok tt, s') /\ stopped s s'.
Proof.
  intros HW Hproc. unfold shutdown_orca_server, bind at 1, gets. rewrite Hproc.
  unfold bind at 1. rewrite Hproc. unfold bind at 1.
  destruct (terminate_process_tree_ok W pid s HW) as [l ->].
  destruct (clear_process_state_stops (extend l s)) as (s' & -> & Hs').
  exists s'. split; [reflexivity | by eapply stopped_extend].
Qed.

(** Whatever the world answers: shutdown either returns with the server
    stopped (or absent from the start), or raises with nothing but the
    history changed. *)
Lemma shutdown_outcome W (s : state) :
  match shutdown_orca_server W s with
  | (Ok _, s') => (orca_proc s = None /\ s' = s) \/ stopped s s'
  | (Raise _, s') => is_Some (orca_proc s) /\ history_only s s'
  end.
Proof.
  unfold shutdown_orca_server, bind at 1, gets.
  destruct (orca_proc s) as [pid |] eqn:Hproc; [| left; done].
  unfold bind at 1. rewrite Hproc. unfold bind at 1.
  pose proof (terminate_process_tree_history W pid s) as [l Hl].
  destruct (terminate_process_tree W pid s) as [[[] | e] s1]; simpl in Hl; subst s1.
  - destruct (clear_process_state_stops (extend l s)) as (s' & -> & Hs').
    right. by eapply stopped_extend.
  - split; [by eexists | by exists l].
Qed.

(** C8: with no server process ([__orca_state['proc'] is None]),
    [shutdown_orca_server] returns without touching anything: the state
    after the call is the state before it, status included.  Hence a
    shutdown that has returned can be repeated at no effect. *)
Theorem shutdown_without_process_is_noop W (s : state) :
  (orca_proc s = None -> shutdown_orca_server W s = (Ok tt, s)) /\
  (forall s1, shutdown_orca_server W s = (Ok tt, s1) ->
              shutdown_orca_server W s1 = (Ok tt, s1)).
Proof.
  assert (Hnoop : forall s0, orca_proc s0 = None ->
                             shutdown_orca_server W s0 = (Ok tt, s0)).
  { intros s0 H0. unfold shutdown_orca_server, bind, gets. by rewrite H0. }
  split; [apply Hnoop |].
  intros s1 H1. apply Hnoop.
  pose proof (shutdown_outcome W s) as Hout. rewrite H1 in Hout.
  destruct Hout as [[Hnone ->] | Hstopped]; [exact Hnone | apply Hstopped].
Qed.

Lemma shutdown_without_process_is_noop_witness :
  orca_proc (initial_state FileAbsent) = None /\
  shutdown_orca_server good_world (initial_state FileAbsent)
    = (Ok tt, initial_state FileAbsent) /\
  shutdown_orca_server good_world (running_state good_world)
    = (Ok tt, run good_world ShutdownOrcaServer (running_state good_world)) /\
  shutdown_orca_server good_world
      (run good_world ShutdownOrcaServer (running_state good_world))
    = (Ok tt, run good_world ShutdownOrcaServer (running_state good_world)).
Proof.
  split; [reflexivity |].
  split; [apply (shutdown_without_process_is_noop good_world); reflexivity |].
  assert (H : shutdown_orca_server good_world (running_state good_world)
    = (Ok tt, run good_world ShutdownOrcaServer (running_state good_world)))
    by (vm_compute; reflexivity).
  split; [exact H |].
  apply (shutdown_without_process_is_noop good_world (running_state good_world)).
  exact H.
Defined.

(** ** Formats *)

Lemma validate_coerce_format_str (s : string) :
  _validate_coerce_format (VStr s) =
    match spec_normalize_format s with
    | Some f => Ok (VStr f)
    | None => Raise (ValueError (InvalidFormat (VStr (strip_dot (lower s)))))
    end.
Proof.
  destruct s as [| c s]; [vm_compute; reflexivity |].
  unfold _validate_coerce_format, spec_normalize_format.
  change (truthy (VStr (String c s))) with true.
  cbn [is_None isinstance_str negb orb]. cbv zeta.
  set (fmt := strip_dot (lower (String c s))).
  rewrite format_conversions_lookup.
  destruct (String.eqb_spec fmt "jpg") as [-> | Hne].
  - vm_compute; reflexivity.
  - rewrite bool_decide_eq_false_2 by exact Hne.
    destruct (bool_decide (fmt ∈ valid_formats)); reflexivity.
Qed.

Lemma validate_coerce_format_str_result (s : string) (v : value) :
  _validate_coerce_format (VStr s) = Ok v -> exists f, v = VStr f.
Proof.
  rewrite validate_coerce_format_str.
  destruct (spec_normalize_format s); [| discriminate].
  intros [= <-]. by eexists.
Qed.

Lemma to_image_bad_format W fig (s : string) width height scale (st : state) :
  spec_normalize_format s = None ->
  exists e st', to_image W fig (VStr s) width height scale st = (Raise e, st') /\
                no_request st st' /\
                (is_ValueError e = true \/ ensure_orca_server W st = (Raise e, st')).
Proof.
  intros Hbad. unfold to_image, bind at 1.
  pose proof (ensure_no_request W st) as Hquiet.
  destruct (ensure_orca_server W st) as [[[] | e] st1]; simpl in Hquiet.
  - unfold or_default at 1. simpl. unfold bind at 1, ret at 1. unfold bind at 1.
    rewrite validate_coerce_format_str, Hbad.
    eexists _, st1. split; [reflexivity |]. split; [exact Hquiet | by left].
  - exists e, st1. split; [reflexivity |]. split; [exact Hquiet | by right].
Qed.

(** C6: [_validate_coerce_format] lower-cases a string, strips one leading
    dot and maps [jpg] to [jpeg]: it returns the normalized format when that
    is one of png, jpeg, webp, svg, pdf, eps, and raises the format
    [ValueError] otherwise.  So "JPG", ".jpg" and "jpeg" give "jpeg", and
    "bmp" raises.  In [to_image] a format that does not normalize makes the
    call raise before any request is posted to the server. *)
Theorem format_normalization :
  (forall s, match spec_normalize_format s with
             | Some f => _validate_coerce_format (VStr s) = Ok (VStr f)
             | None => exists v, _validate_coerce_format (VStr s)
                                 = Raise (ValueError (InvalidFormat v))
             end) /\
  _validate_coerce_format (VStr "JPG") = Ok (VStr "jpeg") /\
  _validate_coerce_format (VStr ".jpg") = Ok (VStr "jpeg") /\
  _validate_coerce_format (VStr "jpeg") = Ok (VStr "jpeg") /\
  _validate_coerce_format (VStr "bmp") = Raise (ValueError (InvalidFormat (VStr "bmp"))) /\
  (forall W fig s width height scale st,
     spec_normalize_format s = None ->
     exists e st', to_image W fig (VStr s) width height scale st = (Raise e, st') /\
                   no_request st st' /\
                   (is_ValueError e = true \/ ensure_orca_server W st = (Raise e, st'))).
Proof.
  split.
  { intros s. rewrite validate_coerce_format_str.
    destruct (spec_normalize_format s); [reflexivity | by eexists]. }
  do 4 (split; [vm_compute; reflexivity |]).
  intros. by apply to_image_bad_format.
Qed.

Lemma format_normalization_witness :
  exists e st',
    to_image good_world (VOther true "Figure()") (VStr "bmp") VNone VNone VNone
             (initial_state FileAbsent) = (Raise e, st') /\
    no_request (initial_state FileAbsent) st' /\
    (is_ValueError e = true \/
     ensure_orca_server good_world (initial_state FileAbsent) = (Raise e, st')).
Proof.
  apply (proj2 (proj2 (proj2 (proj2 (proj2 format_normalization))))).
  vm_compute. reflexivity.
Defined.

(** ** [write_image] *)

(** A format that was accepted for a string is one of the supported
    formats, and is accepted as it is. *)
Lemma validate_coerce_format_fixed (s : string) (v : value) :
  _validate_coerce_format (VStr s) = Ok v ->
  exists f, v = VStr f /\ f ∈ valid_formats /\
            _validate_coerce_format (VStr f) = Ok (VStr f).
Proof.
  rewrite validate_coerce_format_str.
  destruct (spec_normalize_format s) as [f |] eqn:Hnorm; [| discriminate].
  intros [= <-]. exists f. split; [reflexivity |].
  assert (Hf : f ∈ valid_formats).
  { unfold spec_normalize_format in Hnorm. cbv zeta in Hnorm.
    case_bool_decide as Hin; [| discriminate]. by injection Hnorm as <-. }
  split; [exact Hf |].
  apply list_elem_of_In in Hf. simpl in Hf.
  destruct Hf as [<- | [<- | [<- | [<- | [<- | [<- | []]]]]]]; vm_compute; reflexivity.
Qed.

#[local] Instance posts_carry_refl kv : Reflexive (posts_carry kv).
Proof. intros s. exists []. split; [symmetry; apply app_nil_r | constructor]. Qed.

#[local] Instance posts_carry_trans kv : Transitive (posts_carry kv).
Proof.
  intros s1 s2 s3 [l1 [H1 F1]] [l2 [H2 F2]]. exists (l1 ++ l2)%list. split.
  - rewrite H2, H1. symmetry. apply app_assoc.
  - apply Forall_app. by split.
Qed.

Lemma posts_carry_same_trace kv (s s' : state) :
  trace s' = trace s -> posts_carry kv s s'.
Proof. intros H. exists []. rewrite H. split; [symmetry; apply app_nil_r | constructor]. Qed.

Lemma posts_carry_log kv (e : event) (s : state) :
  match e with EPost _ request_params => kv ∈ request_params | _ => True end ->
  posts_carry kv s (log e s).
Proof. intros H. exists [e]. split; [reflexivity | by repeat constructor]. Qed.

Lemma no_request_carries kv (s s' : state) : no_request s s' -> posts_carry kv s s'.
Proof.
  intros [l [Htrace Hquiet]]. exists l. split; [exact Htrace |].
  apply Forall_forall. intros e Hin.
  rewrite forallb_forall in Hquiet. apply list_elem_of_In in Hin.
  specialize (Hquiet e Hin). by destruct e.
Qed.

(** Every attempt of a request posts the keyword arguments that are not
    [None]. *)
Lemma request_carries W kwargs kv :
  kv ∈ kwargs -> is_None kv.2 = false ->
  steps (posts_carry kv) (_request_image_with_retrying W kwargs).
Proof.
  intros Hin Hset. unfold _request_image_with_retrying.
  apply steps_bind; [typeclasses eauto | apply steps_gets; typeclasses eauto | intros start].
  apply steps_retrying_call; try typeclasses eauto.
  - unfold request_image.
    steps_structure;
      first [ apply steps_modify; intros ?; apply posts_carry_same_trace; reflexivity
            | apply steps_call; intros ?; apply posts_carry_log ].
    apply list_elem_of_filter. split; [by rewrite Hset | exact Hin].
  - unfold random_sleep.
    steps_structure; apply steps_modify; intros ?;
      first [ by apply posts_carry_log | apply posts_carry_same_trace; reflexivity ].
Qed.

(** [to_image] with a supported format requests that format. *)
Lemma to_image_carries_format W fig (f : string) width height scale :
  _validate_coerce_format (VStr f) = Ok (VStr f) ->
  steps (posts_carry ("format", VStr f)) (to_image W fig (VStr f) width height scale).
Proof.
  intros Hfixed s. unfold to_image, bind at 1.
  pose proof (ensure_no_request W s) as Hquiet.
  destruct (ensure_orca_server W s) as [[[] | e] s1]; simpl in Hquiet;
    [| by apply no_request_carries].
  etransitivity; [by apply no_request_carries |].
  unfold or_default at 1. cbn [is_None]. unfold bind at 1, ret at 1. unfold bind at 1.
  rewrite Hfixed.
  unfold or_default, get_default_scale, get_default_width, get_default_height, props_get.
  match goal with
  | |- posts_carry ?kv s1 (?m s1).2 => enough (Hm : steps (posts_carry kv) m) by apply Hm
  end.
  steps_structure;
    apply request_carries; [set_solver | reflexivity].
Qed.

(** C9: [write_image] with a string destination and no format.  When the
    destination has an extension, the format is the one obtained from that
    extension ("out.png" gives "png"): it is one of the supported formats,
    the call is the call with that format, it asks [to_image] for that
    format and writes what [to_image] returns, and every request the call
    sends carries that format; when the extension names no supported
    format, the call raises the format [ValueError] with nothing done.  When
    the destination has no extension, the call raises the cannot-infer
    [ValueError] and the state is the one before the call: no request was
    made, no file was created or written. *)
Theorem write_image_infers_format W fig (file : string) scale width height
    (s : state) :
  ((splitext file).2 <> "" ->
   match _validate_coerce_format (VStr (splitext file).2) with
   | Ok format =>
       (exists f, format = VStr f /\ f ∈ valid_formats) /\
       write_image W fig (VStr file) VNone scale width height s =
         write_image W fig (VStr file) format scale width height s /\
       write_image W fig (VStr file) VNone scale width height s =
         (let* img_data := to_image W fig format width height scale in
          write_destination W (VStr file) img_data) s /\
       posts_carry ("format", format) s
         (write_image W fig (VStr file) VNone scale width height s).2
   | Raise e =>
       write_image W fig (VStr file) VNone scale width height s = (Raise e, s)
   end) /\
  ((splitext file).2 = "" ->
   write_image W fig (VStr file) VNone scale width height s =
     (Raise (ValueError (CannotInferImageType file)), s)).
Proof.
  split; intros Hext.
  - destruct (_validate_coerce_format (VStr (splitext file).2)) as [format | e] eqn:Hfmt.
    + destruct (validate_coerce_format_fixed _ _ Hfmt) as (f & -> & Hf & Hfixed).
      assert (Hrun : write_image W fig (VStr file) VNone scale width height s =
                (let* img_data := to_image W fig (VStr f) width height scale in
                 write_destination W (VStr file) img_data) s).
      { unfold write_image. cbn [isinstance_str is_None andb py_str].
        destruct (String.eqb_spec (splitext file).2 "") as [Heq | _]; [done |].
        cbn [negb]. unfold bind at 1. by rewrite Hfmt. }
      split; [by exists f |]. split; [exact Hrun |]. split; [exact Hrun |].
      rewrite Hrun. unfold bind.
      pose proof (to_image_carries_format W fig f width height scale Hfixed s) as Himage.
      destruct (to_image W fig (VStr f) width height scale s) as [[img_data | e] s1];
        simpl in Himage; [| exact Himage].
      etransitivity; [exact Himage |].
      unfold write_destination. cbn [isinstance_str py_str].
      cbv [bind call modify gets]. simpl.
      destruct (open_wb W (trace s1) file); simpl.
      * exists [EOpenWrite file; EFileWrite file]. split.
        -- cbn [trace log set_files]. by rewrite <- app_assoc.
        -- by repeat constructor.
      * exists [EOpenWrite file]. split; [reflexivity | by repeat constructor].
    + unfold write_image. cbn [isinstance_str is_None andb py_str].
      destruct (String.eqb_spec (splitext file).2 "") as [Heq | _]; [done |].
      cbn [negb]. unfold bind at 1. by rewrite Hfmt.
  - unfold write_image. cbn [isinstance_str is_None andb py_str].
    rewrite Hext. reflexivity.
Qed.

Lemma write_image_infers_format_witness :
  ((splitext "out.svg").2 <> "" /\
   match _validate_coerce_format (VStr (splitext "out.svg").2) with
   | Ok format =>
       (exists f, format = VStr f /\ f ∈ valid_formats) /\
       write_image good_world (VOther true "Figure()") (VStr "out.svg") VNone VNone VNone
                   VNone (initial_state FileAbsent) =
         write_image good_world (VOther true "Figure()") (VStr "out.svg") format VNone
                     VNone VNone (initial_state FileAbsent) /\
       write_image good_world (VOther true "Figure()") (VStr "out.svg") VNone VNone VNone
                   VNone (initial_state FileAbsent) =
         (let* img_data := to_image good_world (VOther true "Figure()") format VNone VNone
                                    VNone in
          write_destination good_world (VStr "out.svg") img_data) (initial_state FileAbsent) /\
       posts_carry ("format", format) (initial_state FileAbsent)
         (write_image good_world (VOther true "Figure()") (VStr "out.svg") VNone VNone VNone
                      VNone (initial_state FileAbsent)).2
   | Raise e =>
       write_image good_world (VOther true "Figure()") (VStr "out.svg") VNone VNone VNone
                   VNone (initial_state FileAbsent) = (Raise e, initial_state FileAbsent)
   end) /\
  ((splitext "out").2 = "" /\
   write_image good_world (VOther true "Figure()") (VStr "out") VNone VNone VNone VNone
               (initial_state FileAbsent) =
     (Raise (ValueError (CannotInferImageType "out")), initial_state FileAbsent)).
Proof.
  assert (Hsvg : (splitext "out.svg").2 <> "") by (vm_compute; discriminate).
  assert (Hout : (splitext "out").2 = "") by (vm_compute; reflexivity).
  split; [split; [exact Hsvg |] | split; [exact Hout |]].
  - exact (proj1 (write_image_infers_format good_world (VOther true "Figure()")
                    "out.svg" VNone VNone VNone (initial_state FileAbsent)) Hsvg).
  - exact (proj2 (write_image_infers_format good_world (VOther true "Figure()")
                    "out" VNone VNone VNone (initial_state FileAbsent)) Hout).
Defined.

(** In a world where everything works, writing ["out.png"] posts one request
    with the format [png] and stores the answer in the file. *)
Example write_image_out_png :
  let s' := run good_world
              (WriteImage (VOther true "Figure()") (VStr "out.png") VNone VNone VNone VNone)
              (initial_state FileAbsent) in
  filter (fun e => is_post e) (trace s') =
    [EPost "http://localhost:5000/"
           [("figure", VOther true "Figure()"); ("format", VStr "png"); ("scale", VInt 1)]] /\
  files s' !! "out.png" = Some png_bytes.
Proof. vm_compute. split; reflexivity. Qed.

(** With another default format configured, writing ["out.svg"] still
    requests [svg]: the extension decides, not the default. *)
Example write_image_out_svg :
  let s' := run good_world
              (WriteImage (VOther true "Figure()") (VStr "out.svg") VNone VNone VNone VNone)
              (run good_world (SetDefaultFormat (VStr "pdf")) (initial_state FileAbsent)) in
  filter (fun e => is_post e) (trace s') =
    [EPost "http://localhost:5000/"
           [("figure", VOther true "Figure()"); ("format", VStr "svg"); ("scale", VInt 1)]] /\
  files s' !! "out.svg" = Some png_bytes.
Proof. vm_compute. split; reflexivity. Qed.

(** ** [OrcaConfig.update] *)

(** The key validation loop stops at the first key that is not in [_props],
    and changes nothing. *)
Lemma validate_keys_outcome (updates : list (string * value)) (s : state) :
  for_each updates (fun kv =>
      let* present := gets (fun s => bool_decide (is_Some (config_props s !! kv.1))) in
      if negb present then raise (ValueError (InvalidPropertyName kv.1))
      else ret tt) s
  = match find (fun kv => negb (bool_decide (is_Some (config_props s !! kv.1)))) updates with
    | Some kv => (Raise (ValueError (InvalidPropertyName kv.1)), s)
    | None => (Ok tt, s)
    end.
Proof.
  induction updates as [| kv updates IH]; [reflexivity |].
  simpl. unfold bind at 1. unfold bind at 1, gets at 1.
  destruct (bool_decide (is_Some (config_props s !! kv.1))); simpl.
  - unfold ret at 1. exact IH.
  - reflexivity.
Qed.

Lemma update_missing_key W d kwargs (s : state) (k : string) :
  k ∈ (dict_update d kwargs).*1 -> config_props s !! k = None ->
  exists k', k' ∈ (dict_update d kwargs).*1 /\ config_props s !! k' = None /\
    update W (ADict d) kwargs s = (Raise (ValueError (InvalidPropertyName k')), s).
Proof.
  intros Hin Hnone. unfold update. unfold bind at 1.
  rewrite validate_keys_outcome.
  destruct (find _ (dict_update d kwargs)) as [kv |] eqn:Hfind.
  - apply find_some in Hfind as [Hkv Hmiss].
    exists kv.1. split; [| split; [| reflexivity]].
    + apply list_elem_of_fmap. exists kv. split; [reflexivity | by apply list_elem_of_In].
    + apply negb_true_iff, bool_decide_eq_false in Hmiss.
      destruct (config_props s !! kv.1); [exfalso; apply Hmiss; by eexists | reflexivity].
  - exfalso. apply list_elem_of_fmap in Hin as (kv & -> & Hkv).
    apply list_elem_of_In in Hkv.
    pose proof (find_none _ _ Hfind kv Hkv) as Hpresent. simpl in Hpresent.
    rewrite Hnone in Hpresent.
    rewrite bool_decide_eq_false_2 in Hpresent; [discriminate |].
    intros [? ?]; discriminate.
Qed.

(** C10: [update] raises [ValueError('Invalid property name: ...')] as soon
    as one key of the combined updates is absent from [_props], and the
    state is then the one before the call, since the keys are validated
    before any is applied.  That holds for the names of real properties
    too: on a freshly constructed configuration, or one whose defaults were
    just restored, [_props] is empty and every update of a key raises. *)
Theorem update_rejects_keys_never_set W :
  (forall d kwargs (s : state) (k : string),
     k ∈ (dict_update d kwargs).*1 -> config_props s !! k = None ->
     exists k', k' ∈ (dict_update d kwargs).*1 /\ config_props s !! k' = None /\
       update W (ADict d) kwargs s = (Raise (ValueError (InvalidPropertyName k')), s)) /\
  (forall on_disk k v,
     update W (ADict [(k, v)]) [] (initial_state on_disk)
       = (Raise (ValueError (InvalidPropertyName k)), initial_state on_disk) /\
     update W (ADict []) [(k, v)] (initial_state on_disk)
       = (Raise (ValueError (InvalidPropertyName k)), initial_state on_disk)) /\
  (forall (s : state) k v,
     let s0 := (restore_defaults W false s).2 in
     update W (ADict [(k, v)]) [] s0 = (Raise (ValueError (InvalidPropertyName k)), s0)).
Proof.
  split; [intros; by eapply update_missing_key |].
  split.
  - intros on_disk k v. split; unfold update, bind at 1;
      rewrite validate_keys_outcome; simpl;
      rewrite lookup_empty; rewrite bool_decide_eq_false_2; try reflexivity;
      intros [? ?]; discriminate.
  - intros s k v s0. unfold update, bind at 1.
    rewrite validate_keys_outcome. simpl.
    subst s0. simpl. rewrite lookup_empty.
    rewrite bool_decide_eq_false_2; [reflexivity | intros [? ?]; discriminate].
Qed.

Lemma update_rejects_keys_never_set_witness :
  exists k', k' ∈ (dict_update [("timeout", VInt 30)] [("default_format", VStr "svg")]).*1 /\
    config_props (running_state good_world) !! k' = None /\
    update good_world (ADict [("timeout", VInt 30)]) [("default_format", VStr "svg")]
           (running_state good_world)
      = (Raise (ValueError (InvalidPropertyName k')), running_state good_world).
Proof.
  apply (proj1 (update_rejects_keys_never_set good_world) _ _ _ "timeout").
  - vm_compute. apply list_elem_of_here.
  - vm_compute. reflexivity.
Defined.

Example update_of_assigned_keys :
  let s := run good_world (SetDefaultFormat (VStr "png"))
             (run good_world (SetTimeout VNone) (initial_state FileAbsent)) in
  let s' := run good_world
              (Update (ADict [("timeout", VInt 30); ("default_format", VStr ".SVG")]) []) s in
  config_props s' !! "timeout" = Some (VInt 30) /\
  config_props s' !! "default_format" = Some (VStr "svg").
Proof. vm_compute. split; reflexivity. Qed.

(** ** [OrcaConfig.save] and [OrcaConfig.reload] *)

(** The loop of [reload] assigns nothing when [_props] is empty. *)
Lemma reload_loop_on_empty (orca_props : list (string * value)) (s : state) :
  config_props s = ∅ ->
  for_each orca_props (fun kv =>
      let* known := gets (fun s => bool_decide (is_Some (config_props s !! kv.1))) in
      when known (props_set kv.1 kv.2)) s
  = (Ok tt, s).
Proof.
  intros Hempty. induction orca_props as [| kv orca_props IH]; [reflexivity |].
  simpl. unfold bind at 1. unfold bind at 1, gets at 1.
  rewrite Hempty, lookup_empty.
  rewrite bool_decide_eq_false_2 by (intros [? ?]; discriminate).
  simpl. exact IH.
Qed.

Lemma reload_on_empty (warn_ : bool) (s : state) :
  config_props s = ∅ -> config_props (reload warn_ s).2 = ∅.
Proof.
  intros Hempty. unfold reload, bind at 1, gets at 1.
  destruct (config_file s) as [| | [| orca_props | v]]; destruct warn_; simpl;
    try exact Hempty.
  all: unfold bind at 1, modify at 1;
    rewrite reload_loop_on_empty by exact Hempty; exact Hempty.
Qed.

Lemma save_writes_props W (s s1 : state) :
  save W s = (Ok tt, s1) ->
  config_file s1 = FileText (JsonObject (map_to_list (config_props s))).
Proof.
  unfold save, bind, call, gets, modify. destruct (open_config_w W (trace s)); [| discriminate].
  intros [= <-]. reflexivity.
Qed.

(** C1, on the code: [save] writes every assigned property to the file, but
    a [reload] by a fresh configuration, whose [_props] is empty, applies
    none of them, because it keeps only the keys that are already in
    [_props].  After the round trip every getter answers its default. *)
Theorem reload_on_fresh_config_restores_nothing W (s s1 : state) (warn_ : bool) :
  save W s = (Ok tt, s1) ->
  config_file s1 = FileText (JsonObject (map_to_list (config_props s))) /\
  config_props (reload warn_ (initial_state (config_file s1))).2 = ∅.
Proof.
  intros Hsave. split; [by eapply save_writes_props |].
  by apply reload_on_empty.
Qed.

(** Where the keys are in [_props], [reload] does bring the saved values
    back: assign, save, assign again, reload. *)
Example reload_restores_assigned_keys :
  let s := fold_left (fun s op => run good_world op s)
             [SetPort (VInt 8080); Save; SetPort (VInt 9000); Reload true]
             (initial_state FileAbsent) in
  (get_port s).1 = Ok (VInt 8080).
Proof. vm_compute. reflexivity. Qed.

Lemma props_get_on_empty (k : string) (default : value) (s : state) :
  config_props s = ∅ -> (props_get k default s).1 = Ok default.
Proof. intros H. unfold props_get, gets. cbn [fst]. by rewrite H, lookup_empty. Qed.

Lemma reload_on_fresh_config_restores_nothing_witness :
  save good_world assigned_session = (Ok tt, saved_session) /\
  config_props saved_session !! "port" = Some (VInt 8080) /\
  config_file saved_session =
    FileText (JsonObject
      [("timeout", VInt 30); ("default_width", VInt 640);
       ("default_scale", VInt 2); ("default_format", VStr "svg");
       ("default_height", VInt 480); ("port", VInt 8080)]) /\
  config_props (reload true (initial_state (config_file saved_session))).2 = ∅ /\
  (get_port (reload true (initial_state (config_file saved_session))).2).1 = Ok VNone /\
  (get_timeout (reload true (initial_state (config_file saved_session))).2).1 = Ok VNone /\
  (get_default_format (reload true (initial_state (config_file saved_session))).2).1
    = Ok (VStr "png") /\
  (get_default_width (reload true (initial_state (config_file saved_session))).2).1
    = Ok VNone /\
  (get_default_height (reload true (initial_state (config_file saved_session))).2).1
    = Ok VNone /\
  (get_default_scale (reload true (initial_state (config_file saved_session))).2).1
    = Ok (VInt 1).
Proof.
  assert (Hsave : save good_world assigned_session = (Ok tt, saved_session))
    by (vm_compute; reflexivity).
  pose proof (reload_on_fresh_config_restores_nothing good_world
                assigned_session saved_session true Hsave) as [_ Hempty].
  split; [exact Hsave |].
  split; [vm_compute; reflexivity |]. split; [vm_compute; reflexivity |].
  split; [exact Hempty |].
  repeat split; apply props_get_on_empty; exact Hempty.
Defined.

(** ** Setters and the running server *)

(** Assigning a property and then shutting down, with a live process and
    process-management calls that work. *)
Lemma assign_then_shutdown W pid (k : string) (val : value) (s : state) :
  teardown_succeeds W -> orca_proc s = Some pid ->
  exists s', (props_set k val ;; shutdown_orca_server W) s = (Ok tt, s') /\
             stopped (set_config_props (insert k val) s) s'.
Proof.
  intros HW Hproc. unfold bind, props_set, modify.
  destruct (shutdown_stops W pid (set_config_props (insert k val) s) HW Hproc)
    as (s' & -> & Hs').
  by exists s'.
Qed.

Lemma set_executable_stops W pid (val : value) (s : state) :
  teardown_succeeds W -> orca_proc s = Some pid ->
  negb (truthy val) || isinstance_str val = true ->
  exists s', set_executable W val s = (Ok tt, s') /\
    stopped (set_config_props
               (insert "executable" (if negb (truthy val) then VStr "orca" else val)) s) s'.
Proof.
  intros HW Hproc Hval. unfold set_executable.
  destruct (negb (truthy val)) eqn:Htruth; simpl.
  - by eapply assign_then_shutdown.
  - simpl in Hval. rewrite Hval. simpl. by eapply assign_then_shutdown.
Qed.

Lemma set_topojson_stops W pid (val : value) (s : state) :
  teardown_succeeds W -> orca_proc s = Some pid ->
  is_None val || isinstance_str val = true ->
  exists s', set_topojson W val s = (Ok tt, s') /\
             stopped (set_config_props (insert "topojson" val) s) s'.
Proof.
  intros HW Hproc Hval. unfold set_topojson.
  replace (negb (is_None val) && negb (isinstance_str val)) with false
    by (destruct (is_None val), (isinstance_str val); done).
  by eapply assign_then_shutdown.
Qed.

Lemma set_mathjax_stops W pid (val : value) (s : state) :
  teardown_succeeds W -> orca_proc s = Some pid ->
  is_None val || isinstance_str val = true ->
  exists s', set_mathjax W val s = (Ok tt, s') /\
             stopped (set_config_props (insert "mathjax" val) s) s'.
Proof.
  intros HW Hproc Hval. unfold set_mathjax.
  replace (negb (is_None val) && negb (isinstance_str val)) with false
    by (destruct (is_None val), (isinstance_str val); done).
  by eapply assign_then_shutdown.
Qed.

Lemma set_mapbox_access_token_stops W pid (val : value) (s : state) :
  teardown_succeeds W -> orca_proc s = Some pid ->
  is_None val || isinstance_str val = true ->
  exists s', set_mapbox_access_token W val s = (Ok tt, s') /\
             stopped (set_config_props (insert "mapbox_access_token" val) s) s'.
Proof.
  intros HW Hproc Hval. unfold set_mapbox_access_token.
  replace (negb (is_None val) && negb (isinstance_str val)) with false
    by (destruct (is_None val), (isinstance_str val); done).
  by eapply assign_then_shutdown.
Qed.

Lemma stopped_state (s s' : state) :
  stopped s s' -> st_state (status s') = validated /\ orca_proc s' = None.
Proof. intros (Hproc & _ & _ & Hstatus & _). by rewrite Hstatus. Qed.

Lemma good_world_teardown popen_answer post_answer :
  teardown_succeeds (working_world popen_answer post_answer).
Proof. repeat split; intros; try reflexivity. by eexists. Qed.

(** The setters that only record their value. *)
Lemma recording_setter_untouched (k : string) (val : value) (bad : bool) (e : exn) :
  steps server_untouched (if bad then raise e else props_set k val).
Proof.
  destruct bad; [apply steps_raise; typeclasses eauto |].
  apply steps_modify. intros s. unfold server_untouched. simpl. tauto.
Qed.

Lemma stopped_not_running (s s' : state) :
  stopped s s' -> orca_proc s' = None /\ st_state (status s') <> running.
Proof. intros (Hproc & _ & _ & Hstatus & _). by rewrite Hstatus. Qed.

(** ** The launch *)

Lemma build_cmd_list_spec (executable port plotlyjs topojson mathjax token : value) :
  build_cmd_list executable port plotlyjs topojson mathjax token =
  spec_launch_command executable port plotlyjs topojson mathjax token.
Proof.
  unfold build_cmd_list, spec_launch_command, extend_if, optional_pair.
  destruct (truthy plotlyjs), (truthy topojson), (truthy mathjax), (truthy token);
    reflexivity.
Qed.

(** The launch block, run: the port is the configured one, or else the one
    the socket reports; the command is built and handed to [Popen]; the
    process table and the status are filled in when [Popen] returns. *)
Lemma launch_run W (s : state) :
  launch_orca_server W s =
    match (if is_None (config_value s "port" VNone)
           then match getsockname W (trace s) with
                | Ok p => (Ok (VInt p), log EFindOpenPort s)
                | Raise e => (Raise e, log EFindOpenPort s)
                end
           else (Ok (config_value s "port" VNone), s)) with
    | (Raise e, s1) => (Raise e, s1)
    | (Ok port, s1) =>
        let cmd_list := spec_command_of W s port in
        let s2 := log (EPopen cmd_list) (set_orca_port (Some port) s1) in
        match Popen W (trace s1) cmd_list with
        | Raise e => (Raise e, s2)
        | Ok pid =>
            (Ok tt, set_status (fun t => mkStatus running (st_executable t) (st_version t)
                                           (Some pid) port (Some cmd_list))
                     (set_orca_proc (Some pid) s2))
        end
    end.
Proof.
  unfold launch_orca_server, get_port, get_executable, get_plotlyjs, get_topojson,
    get_mathjax, get_mapbox_access_token, props_get, _find_open_port.
  cbv [bind gets call modify ret]. fold (config_value s "port" VNone).
  unfold spec_command_of, plotlyjs, default_topojson, default_mathjax.
  destruct (is_None (config_value s "port" VNone)).
  - destruct (getsockname W (trace s)); [| reflexivity].
    cbn. rewrite !build_cmd_list_spec. unfold config_value.
    destruct (Popen W _ _); reflexivity.
  - cbn. rewrite !build_cmd_list_spec. unfold config_value.
    destruct (Popen W _ _); reflexivity.
Qed.

Lemma launch_command W (s s' : state) (r : result unit) :
  launch_orca_server W s = (r, s') ->
  (is_None (config_value s "port" VNone) = true /\
   exists e, getsockname W (trace s) = Raise e /\ r = Raise e /\
             trace s' = (trace s ++ [EFindOpenPort])%list) \/
  exists port,
    (if is_None (config_value s "port" VNone)
     then exists p, getsockname W (trace s) = Ok p /\ port = VInt p
     else port = config_value s "port" VNone) /\
    orca_port s' = Some port /\
    last (trace s') = Some (EPopen (spec_command_of W s port)) /\
    (r = Ok tt -> st_command (status s') = Some (spec_command_of W s port) /\
                  st_port (status s') = port /\ st_state (status s') = running).
Proof.
  rewrite launch_run.
  destruct (is_None (config_value s "port" VNone)) eqn:Hnone.
  - destruct (getsockname W (trace s)) as [p | e] eqn:Hsock.
    + intros Hrun. right. exists (VInt p). split; [by exists p |].
      cbv zeta in Hrun. destruct (Popen W _ _); injection Hrun as <- <-; simpl;
        rewrite last_snoc; repeat split; done.
    + intros [= <- <-]. left. split; [reflexivity |]. by exists e.
  - intros Hrun. right. exists (config_value s "port" VNone). split; [reflexivity |].
    cbv zeta in Hrun. destruct (Popen W _ _); injection Hrun as <- <-; simpl;
      rewrite last_snoc; repeat split; done.
Qed.

Lemma status_only_status (f : OrcaStatus -> OrcaStatus) (s : state) :
  status_only s (set_status f s).
Proof. unfold status_only. simpl. tauto. Qed.

Lemma status_only_log (e : event) (s : state) : status_only s (log e s).
Proof. unfold status_only. simpl. tauto. Qed.

Lemma validate_status_only W : steps status_only (validate_orca_executable W).
Proof.
  unfold validate_orca_executable, get_executable, props_get, which.
  steps_structure;
    first [ apply steps_modify; intros ?; apply status_only_status
          | apply steps_call; intros ?; apply status_only_log ].
Qed.

(** A call of [ensure_orca_server] that returns, made without a process:
    the launch block ran, from a state [s1] with the configuration of [s],
    and what followed kept the status it wrote. *)
Lemma ensure_launches W (s s' : state) :
  ensure_orca_server W s = (Ok tt, s') -> orca_proc s = None ->
  exists s1 s2, config_props s1 = config_props s /\
                launch_orca_server W s1 = (Ok tt, s2) /\
                status s' = status s2 /\
                exists l, trace s' = (trace s2 ++ l)%list.
Proof.
  intros Hrun Hproc. unfold ensure_orca_server in Hrun.
  destruct (psutil W); [| discriminate]. cbn [negb] in Hrun.
  unfold bind at 1, gets at 1 in Hrun. unfold bind at 1 in Hrun.
  set (vb := match st_state (status s) with
             | unvalidated => validate_orca_executable W
             | _ => ret tt
             end) in Hrun.
  assert (Hvb : status_only s (vb s).2).
  { subst vb. destruct (st_state (status s)); try reflexivity. apply validate_status_only. }
  destruct (vb s) as [[[] | e] s0]; [| discriminate]. simpl in Hvb.
  destruct Hvb as (Hprops & Hproc0 & _).
  revert Hrun. cbv [ensure_orca_server_locked bind gets modify ret get_timeout props_get].
  destruct (orca_shutdown_timer s0) as [t |].
  - cbn [orca_proc log]. rewrite Hproc0, Hproc.
    destruct (launch_orca_server W (log (ETimerCancel t) s0)) as [[[] | e] s2] eqn:Hlaunch;
      [| discriminate].
    intros Hrun. exists (log (ETimerCancel t) s0), s2.
    split; [exact Hprops |]. split; [exact Hlaunch |].
    destruct (is_None _); injection Hrun as <-; simpl.
    + split; [reflexivity |]. exists []. by rewrite app_nil_r.
    + split; [reflexivity |]. by eexists.
  - rewrite Hproc0, Hproc.
    destruct (launch_orca_server W s0) as [[[] | e] s2] eqn:Hlaunch; [| discriminate].
    intros Hrun. exists s0, s2.
    split; [exact Hprops |]. split; [exact Hlaunch |].
    destruct (is_None _); injection Hrun as <-; simpl.
    + split; [reflexivity |]. exists []. by rewrite app_nil_r.
    + split; [reflexivity |]. by eexists.
Qed.

Lemma spec_command_of_config W (s s1 : state) (port : value) :
  config_props s1 = config_props s -> spec_command_of W s1 port = spec_command_of W s port.
Proof. intros H. unfold spec_command_of, config_value. by rewrite H. Qed.

(** C7: the command list of a launch is, in this order, the configured
    executable, [serve], [-p], the port as a string, [--graph-only], then
    [--plotly <path>], [--topojson <path>], [--mathjax <path>] and
    [--mapbox-access-token <token>], each pair present exactly when the
    value the configuration reports for it is set and not empty.  That
    list is what the launch block passes to [Popen], and what
    [ensure_orca_server] records as the status command when it has started
    a server. *)
Theorem launch_command_order W (s : state) :
  (forall executable port plotlyjs topojson mathjax token,
     build_cmd_list executable port plotlyjs topojson mathjax token =
     spec_launch_command executable port plotlyjs topojson mathjax token) /\
  (forall r s',
     launch_orca_server W s = (r, s') ->
     (exists e, getsockname W (trace s) = Raise e /\ r = Raise e /\
                trace s' = (trace s ++ [EFindOpenPort])%list) \/
     exists port,
       orca_port s' = Some port /\
       last (trace s') = Some (EPopen (spec_command_of W s port)) /\
       (r = Ok tt -> st_command (status s') = Some (spec_command_of W s port) /\
                     st_port (status s') = port)) /\
  (forall s',
     ensure_orca_server W s = (Ok tt, s') -> orca_proc s = None ->
     exists port,
       st_command (status s') = Some (spec_command_of W s port) /\
       st_port (status s') = port /\
       EPopen (spec_command_of W s port) ∈ trace s').
Proof.
  split; [intros; apply build_cmd_list_spec |]. split.
  - intros r s' Hrun. destruct (launch_command W s s' r Hrun) as [[_ H] | [port H]].
    + by left.
    + right. exists port. destruct H as (_ & Hport & Hlast & Hok).
      split; [exact Hport |]. split; [exact Hlast |].
      intros Hr. destruct (Hok Hr) as (? & ? & _). by split.
  - intros s' Hrun Hproc.
    destruct (ensure_launches W s s' Hrun Hproc) as (s1 & s2 & Hprops & Hlaunch & Hst & l & Hl).
    destruct (launch_command W s1 s2 _ Hlaunch) as [(_ & e & _ & He & _) | [port H]];
      [discriminate |].
    destruct H as (_ & _ & Hlast & Hok). destruct (Hok eq_refl) as (Hcmd & Hport & _).
    exists port. rewrite <- (spec_command_of_config W s s1 port Hprops).
    rewrite Hst. split; [exact Hcmd |]. split; [exact Hport |].
    rewrite Hl. apply elem_of_app. left.
    apply last_Some in Hlast as [l' ->]. apply elem_of_app. right. apply list_elem_of_here.
Qed.

Lemma launch_command_order_witness :
  exists port,
    st_command (status (running_state good_world))
      = Some (spec_command_of good_world (initial_state FileAbsent) port) /\
    st_port (status (running_state good_world)) = port /\
    EPopen (spec_command_of good_world (initial_state FileAbsent) port)
      ∈ trace (running_state good_world).
Proof.
  assert (Hrun : ensure_orca_server good_world (initial_state FileAbsent)
                 = (Ok tt, running_state good_world)) by (vm_compute; reflexivity).
  exact (proj2 (proj2 (launch_command_order good_world (initial_state FileAbsent)))
           (running_state good_world) Hrun eq_refl).
Defined.

(** The command of a first launch with nothing configured: [topojson] and
    [mathjax] report their defaults, so their pairs are present. *)
Example default_launch_command :
  st_command (status (running_state good_world)) =
    Some [VStr "orca"; VStr "serve"; VStr "-p"; VStr "5000"; VStr "--graph-only";
          VStr "--plotly"; VStr "/opt/plotly/package_data/plotly.min.js";
          VStr "--topojson"; VStr "/opt/plotly/package_data/topojson";
          VStr "--mathjax";
          VStr "https://cdnjs.cloudflare.com/ajax/libs/mathjax/2.7.5/MathJax.js"].
Proof. vm_compute. reflexivity. Qed.

(** With a port, no topojson, no mathjax and a mapbox token. *)
Example configured_launch_command :
  st_command (status
    (fold_left (fun s op => run good_world op s)
       [SetPort (VInt 8080); SetTopojson VNone; SetMathjax (VStr "");
        SetMapboxAccessToken (VStr "pk.token"); SetExecutable (VStr "/opt/orca");
        EnsureOrcaServer]
       (initial_state FileAbsent))) =
    Some [VStr "/opt/orca"; VStr "serve"; VStr "-p"; VStr "8080"; VStr "--graph-only";
          VStr "--plotly"; VStr "/opt/plotly/package_data/plotly.min.js";
          VStr "--mapbox-access-token"; VStr "pk.token"].
Proof. vm_compute. reflexivity. Qed.

(** ** One launch, never a second *)

Lemma count_single (p : event -> bool) (e : event) :
  length (filter p [e]) = if p e then 1%nat else 0%nat.
Proof. rewrite filter_cons, filter_nil. by destruct (p e). Qed.


Lemma port_picks_log (e : event) (s : state) :
  port_picks (log e s) = (port_picks s + (if is_find_open_port e then 1 else 0))%nat.
Proof. unfold port_picks. simpl. by rewrite filter_app, length_app, count_single. Qed.

#[local] Instance at_most_refl n : Reflexive (at_most n).
Proof. intros s. unfold at_most. lia. Qed.

#[local] Instance at_most_0_trans : Transitive (at_most 0).
Proof. intros s1 s2 s3. unfold at_most. lia. Qed.








(** ** Image requests and retrying *)

Lemma request_image_run W kwargs port (s : state) :
  orca_port s = Some port ->
  request_image W kwargs s =
    (match requests_post W (trace s) (request_url port) (request_params kwargs) with
     | Ok r => Ok (content r)
     | Raise e => Raise e
     end, after_post W kwargs port s).
Proof.
  intros Hport. unfold request_image. cbv [bind gets call modify ret]. rewrite Hport.
  unfold after_post, request_url, request_params. simpl.
  destruct (requests_post W _ _ _); reflexivity.
Qed.

Lemma request_image_later W kwargs : steps later (request_image W kwargs).
Proof.
  intros s. unfold request_image. cbv [bind gets call modify ret].
  destruct (orca_port s); [| apply later_refl].
  simpl. destruct (requests_post W _ _ _); unfold later; simpl; lia.
Qed.

Lemma random_sleep_run W (s : state) :
  exists ms, wait_random_min <= ms <= wait_random_max /\
    random_sleep W s = (Ok tt, set_clock (fun c => c + ms) (log (ESleep ms) s)).
Proof.
  exists (Z.max wait_random_min (Z.min wait_random_max (randint W (trace s)))).
  split; [unfold wait_random_min, wait_random_max; lia | reflexivity].
Qed.

(** The budget ends the loop before the fuel does: with [n] retries left
    and less than [wait_random_min * n] ms of budget, more fuel changes
    nothing. *)
Lemma retrying_call_fuel {A} W (fn : M A) (start_time : Z) :
  steps later fn ->
  forall (n n' : nat) (s : state),
    stop_max_delay - (clock s - start_time) <= wait_random_min * Z.of_nat n ->
    (n <= n')%nat ->
    retrying_call W n' start_time fn s = retrying_call W n start_time fn s.
Proof.
  intros Hfn. induction n as [| n IH]; intros n' s Hbudget Hle.
  - pose proof (Hfn s) as Hlater. unfold later in Hlater.
    destruct n'; simpl; [reflexivity |].
    destruct (fn s) as [[a | e] s1]; [reflexivity |]. simpl in Hlater.
    destruct (Z.leb_spec stop_max_delay (clock s1 - start_time)); [reflexivity |].
    unfold wait_random_min in Hbudget. lia.
  - destruct n' as [| n']; [lia |]. simpl.
    pose proof (Hfn s) as Hlater. unfold later in Hlater.
    destruct (fn s) as [[a | e] s1]; [reflexivity |]. simpl in Hlater.
    destruct (Z.leb_spec stop_max_delay (clock s1 - start_time)); [reflexivity |].
    destruct (random_sleep_run W s1) as (ms & Hms & Hsleep).
    unfold bind. rewrite Hsleep. apply IH; [| lia].
    simpl. unfold wait_random_min in *. lia.
Qed.

Lemma retrying_call_returns {A} W (fn : M A) (n : nat) (start_time : Z) (s s1 : state) a :
  fn s = (Ok a, s1) -> retrying_call W n start_time fn s = (Ok a, s1).
Proof. intros H. destruct n; simpl; by rewrite H. Qed.

Lemma retrying_call_stops {A} W (fn : M A) (n : nat) (start_time : Z) (s s1 : state) e :
  fn s = (Raise e, s1) -> stop_max_delay <= clock s1 - start_time ->
  retrying_call W n start_time fn s = (Raise e, s1).
Proof.
  intros H Hstop. apply Z.leb_le in Hstop. destruct n; simpl; by rewrite H, Hstop.
Qed.

Lemma retrying_call_retries {A} W (fn : M A) (n : nat) (start_time : Z) (s s1 : state) e :
  fn s = (Raise e, s1) -> clock s1 - start_time < stop_max_delay ->
  retrying_call W (S n) start_time fn s =
    (random_sleep W ;; retrying_call W n start_time fn) s1.
Proof.
  intros H Hgo. apply Z.leb_gt in Hgo. simpl. by rewrite H, Hgo.
Qed.

Lemma after_post_elapsed W kwargs port (s : state) :
  clock (after_post W kwargs port s) - clock s = Z.max 0 (post_elapsed W (trace s)).
Proof. unfold after_post. simpl. lia. Qed.

(** C4, as the code has it: once [requests.post] has returned a response,
    whatever its status code, the request function returns the body of the
    response as the image, after that single post.  Any exception raised
    by the attempt, a connection failure or not, is handled the same way:
    re-raised if the delay since the first attempt has reached 10000 ms,
    and otherwise followed by a random sleep and another attempt.  The
    budget, not the bound on the number of retries, ends the loop. *)
Theorem request_outcomes W kwargs port (s : state) :
  orca_port s = Some port ->
  (forall r,
     requests_post W (trace s) (request_url port) (request_params kwargs) = Ok r ->
     _request_image_with_retrying W kwargs s
       = (Ok (content r), after_post W kwargs port s)) /\
  (forall e,
     requests_post W (trace s) (request_url port) (request_params kwargs) = Raise e ->
     _request_image_with_retrying W kwargs s =
       if stop_max_delay <=? Z.max 0 (post_elapsed W (trace s))
       then (Raise e, after_post W kwargs port s)
       else (random_sleep W ;;
             retrying_call W (Nat.pred max_retries) (clock s) (request_image W kwargs))
              (after_post W kwargs port s)) /\
  (forall n, (max_retries <= n)%nat ->
     retrying_call W n (clock s) (request_image W kwargs) s
       = _request_image_with_retrying W kwargs s).
Proof.
  intros Hport.
  assert (Hrun : _request_image_with_retrying W kwargs s =
                 retrying_call W max_retries (clock s) (request_image W kwargs) s)
    by reflexivity.
  pose proof (request_image_run W kwargs port s Hport) as Hattempt.
  split; [| split].
  - intros r Hr. rewrite Hr in Hattempt. rewrite Hrun.
    by apply retrying_call_returns.
  - intros e He. rewrite He in Hattempt. rewrite Hrun.
    destruct (Z.leb_spec stop_max_delay (Z.max 0 (post_elapsed W (trace s)))) as [Hstop | Hgo].
    + apply retrying_call_stops; [exact Hattempt |]. by rewrite after_post_elapsed.
    + change max_retries with (S (Nat.pred max_retries)) at 1.
      apply (retrying_call_retries W _ _ _ _ _ e); [exact Hattempt |].
      by rewrite after_post_elapsed.
  - intros n Hn. rewrite Hrun.
    apply retrying_call_fuel; [apply request_image_later | | exact Hn].
    replace (clock s - clock s) with 0 by lia. vm_compute. discriminate.
Qed.

Lemma request_outcomes_witness :
  _request_image_with_retrying error_world [("figure", VOther true "Figure()")]
      (running_state error_world)
    = (Ok (content (Response 500 error_page)),
       after_post error_world [("figure", VOther true "Figure()")] (VInt 5000)
                  (running_state error_world)).
Proof.
  apply (proj1 (request_outcomes error_world [("figure", VOther true "Figure()")]
                  (VInt 5000) (running_state error_world) eq_refl)).
  reflexivity.
Defined.

(** Against C4 as stated: the exchange completes with status 500, and the
    body of the error response is returned as the image, by the request
    function and by [to_image]; and an exception that is no connection
    failure is retried, the second post giving the result. *)
Lemma error_response_is_returned_as_image :
  requests_post error_world (trace (running_state error_world))
      (request_url (VInt 5000)) [("figure", VOther true "Figure()")]
    = Ok (Response 500 error_page) /\
  ~ (200 <= status_code (Response 500 error_page) < 300) /\
  (_request_image_with_retrying error_world [("figure", VOther true "Figure()")]
     (running_state error_world)).1 = Ok error_page /\
  ~ (exists e, (_request_image_with_retrying error_world
                  [("figure", VOther true "Figure()")]
                  (running_state error_world)).1 = Raise e) /\
  (to_image error_world (VOther true "Figure()") VNone VNone VNone VNone
     (initial_state FileAbsent)).1 = Ok error_page /\
  (to_image flaky_world (VOther true "Figure()") VNone VNone VNone VNone
     (initial_state FileAbsent)).1 = Ok png_bytes /\
  posts (to_image flaky_world (VOther true "Figure()") VNone VNone VNone VNone
           (initial_state FileAbsent)).2 = 2%nat.
Proof.
  split; [reflexivity |]. split; [simpl; lia |].
  assert (H : (_request_image_with_retrying error_world
                 [("figure", VOther true "Figure()")]
                 (running_state error_world)).1 = Ok error_page)
    by (vm_compute; reflexivity).
  split; [exact H |]. split; [intros [e He]; rewrite H in He; discriminate |].
  split; [vm_compute; reflexivity |]. split; vm_compute; reflexivity.
Qed.

(** ** No relaunch *)








(** A launch in which [Popen] itself raises: the supervisor has picked one
    port and called [Popen] once, and the caller gets the error. *)
Example failed_launch_is_surfaced :
  (ensure_orca_server no_spawn_world (initial_state FileAbsent)).1
    = Raise (External "OSError") /\
  launches (ensure_orca_server no_spawn_world (initial_state FileAbsent)).2 = 1%nat /\
  port_picks (ensure_orca_server no_spawn_world (initial_state FileAbsent)).2 = 1%nat /\
  ~ ((ensure_orca_server no_spawn_world (initial_state FileAbsent)).1 = Ok tt /\
     launches (ensure_orca_server no_spawn_world (initial_state FileAbsent)).2 = 2%nat).
Proof.
  split; [vm_compute; reflexivity |]. split; [vm_compute; reflexivity |].
  split; [vm_compute; reflexivity |].
  intros [H _]. vm_compute in H. discriminate.
Qed.

(** ** The status and the process table agree *)

#[local] Instance core_same_refl : Reflexive core_same.
Proof. intros s. unfold core_same. tauto. Qed.

#[local] Instance core_same_trans : Transitive core_same.
Proof. intros s1 s2 s3. unfold core_same. intuition congruence. Qed.

Lemma core_same_consistent (s s' : state) : core_same s s' -> consistent s -> consistent s'.
Proof. intros [Hst Hproc]. unfold consistent. by rewrite Hst, Hproc. Qed.

Lemma keeps_of_steps {A} (m : M A) : steps core_same m -> keeps consistent m.
Proof. intros Hm s Hs. eapply core_same_consistent; [apply Hm | exact Hs]. Qed.

Lemma keeps_bind {A B} (P : state -> Prop) (m : M A) (k : A -> M B) :
  keeps P m -> (forall a, keeps P (k a)) -> keeps P (bind m k).
Proof.
  intros Hm Hk s Hs. unfold bind. specialize (Hm s Hs).
  destruct (m s) as [[a | e] s1]; simpl in *; [by apply Hk | exact Hm].
Qed.

Lemma keeps_for_each {A} (P : state -> Prop) (l : list A) (body : A -> M unit) :
  (forall x, keeps P (body x)) -> keeps P (for_each l body).
Proof.
  intros Hbody. induction l as [| x l IH]; simpl; [by intros s Hs |].
  apply keeps_bind; [apply Hbody | intros _; exact IH].
Qed.

(** Closes the side conditions of [steps core_same]: the step leaves the
    status and the process handle alone. *)
Ltac core_step :=
  first [ apply steps_modify | apply steps_call ];
  intros ?; unfold core_same; simpl; tauto.

Lemma shutdown_keeps_consistent W : keeps consistent (shutdown_orca_server W).
Proof.
  intros s Hs. pose proof (shutdown_outcome W s) as Hout.
  destruct (shutdown_orca_server W s) as [[[] | e] s']; simpl.
  - destruct Hout as [[_ ->] | Hstopped]; [exact Hs |].
    destruct Hstopped as (Hproc & _ & _ & Hstatus & _).
    unfold consistent. rewrite Hproc, Hstatus. simpl.
    split; [discriminate | intros [? ?]; discriminate].
  - destruct Hout as [_ [l ->]]. exact Hs.
Qed.

Lemma props_set_keeps_consistent (k : string) (val : value) :
  keeps consistent (props_set k val).
Proof. apply keeps_of_steps. unfold props_set. core_step. Qed.

Lemma recording_setter_keeps (k : string) (val : value) (bad : bool) (e : exn) :
  keeps consistent (if bad then raise e else props_set k val).
Proof. destruct bad; [by intros s Hs | apply props_set_keeps_consistent]. Qed.

Lemma restarting_setter_keeps W (k : string) (val : value) (bad : bool) (e : exn) :
  keeps consistent
    (if bad then raise e else props_set k val ;; shutdown_orca_server W).
Proof.
  destruct bad; [by intros s Hs |].
  apply keeps_bind; [apply props_set_keeps_consistent | intros _].
  apply shutdown_keeps_consistent.
Qed.

Lemma raise_keeps {A} (P : state -> Prop) (e : exn) : keeps P (@raise A e).
Proof. by intros s Hs. Qed.

Lemma ret_keeps {A} (P : state -> Prop) (a : A) : keeps P (ret a).
Proof. by intros s Hs. Qed.

Lemma set_port_keeps val : keeps consistent (set_port val).
Proof. apply recording_setter_keeps. Qed.

Lemma set_timeout_keeps val : keeps consistent (set_timeout val).
Proof. apply recording_setter_keeps. Qed.

Lemma set_default_width_keeps val : keeps consistent (set_default_width val).
Proof. apply recording_setter_keeps. Qed.

Lemma set_default_height_keeps val : keeps consistent (set_default_height val).
Proof. apply recording_setter_keeps. Qed.

Lemma set_default_scale_keeps val : keeps consistent (set_default_scale val).
Proof. apply recording_setter_keeps. Qed.

Lemma set_default_format_keeps val : keeps consistent (set_default_format val).
Proof.
  unfold set_default_format. destruct (_validate_coerce_format val);
    [apply props_set_keeps_consistent | apply raise_keeps].
Qed.

Lemma set_executable_keeps W val : keeps consistent (set_executable W val).
Proof. unfold set_executable. cbv zeta. apply restarting_setter_keeps. Qed.

Lemma set_topojson_keeps W val : keeps consistent (set_topojson W val).
Proof. apply restarting_setter_keeps. Qed.

Lemma set_mathjax_keeps W val : keeps consistent (set_mathjax W val).
Proof. apply restarting_setter_keeps. Qed.

Lemma set_mapbox_access_token_keeps W val :
  keeps consistent (set_mapbox_access_token W val).
Proof. apply restarting_setter_keeps. Qed.

Create HintDb orca_keeps.
#[local] Hint Resolve raise_keeps ret_keeps set_port_keeps set_timeout_keeps
  set_default_width_keeps set_default_height_keeps set_default_scale_keeps
  set_default_format_keeps set_executable_keeps set_topojson_keeps
  set_mathjax_keeps set_mapbox_access_token_keeps : orca_keeps.

Lemma setattr_keeps W (k : string) (v : value) : keeps consistent (setattr W k v).
Proof.
  unfold setattr.
  repeat match goal with
         | |- keeps _ (if ?b then _ else _) => destruct b
         end; auto with orca_keeps.
Qed.

Lemma update_keeps W d kwargs : keeps consistent (update W d kwargs).
Proof.
  unfold update. destruct d as [d | v]; [| apply raise_keeps].
  apply keeps_bind.
  - apply keeps_for_each. intros kv. apply keeps_of_steps.
    steps_structure.
  - intros _. apply keeps_for_each. intros kv. apply setattr_keeps.
Qed.

Lemma reset_keeps W : keeps consistent (reset_orca_status W).
Proof.
  intros s Hs. unfold reset_orca_status, bind at 1.
  pose proof (shutdown_outcome W s) as Hout.
  pose proof (shutdown_keeps_consistent W s Hs) as Hkeep.
  destruct (shutdown_orca_server W s) as [[[] | e] s']; simpl in *; [| exact Hkeep].
  assert (Hproc : orca_proc s' = None).
  { destruct Hout as [[Hnone ->] | Hstopped]; [exact Hnone | apply Hstopped]. }
  unfold consistent. simpl. rewrite Hproc.
  split; [discriminate | intros [? ?]; discriminate].
Qed.

Lemma restore_defaults_keeps W b : keeps consistent (restore_defaults W b).
Proof.
  unfold restore_defaults. apply keeps_bind.
  - apply keeps_of_steps. core_step.
  - intros _. destruct b; [apply reset_keeps | apply ret_keeps].
Qed.

Lemma reload_keeps b : keeps consistent (reload b).
Proof.
  apply keeps_of_steps. unfold reload, warn, props_set.
  steps_structure; first [core_step | intros ?; unfold core_same; simpl; tauto].
Qed.

Lemma save_keeps W : keeps consistent (save W).
Proof. apply keeps_of_steps. unfold save. steps_structure; core_step. Qed.

(** [validate_orca_executable] touches the status only, and the state it
    leaves is the one it found or [validated]. *)
Lemma validate_state W :
  steps (fun s s' => orca_proc s' = orca_proc s /\
                     (st_state (status s') = st_state (status s) \/
                      st_state (status s') = validated))
        (validate_orca_executable W).
Proof.
  assert (Hrefl : Reflexive (fun s s' : state => orca_proc s' = orca_proc s /\
                     (st_state (status s') = st_state (status s) \/
                      st_state (status s') = validated))) by (intros s; tauto).
  assert (Htrans : Transitive (fun s s' : state => orca_proc s' = orca_proc s /\
                     (st_state (status s') = st_state (status s) \/
                      st_state (status s') = validated))).
  { intros s1 s2 s3 [H1 H1'] [H2 H2']. split; [congruence |].
    destruct H2' as [H2' | H2']; [rewrite H2'; exact H1' | by right]. }
  unfold validate_orca_executable, get_executable, props_get, which.
  steps_structure;
    first [apply steps_modify | apply steps_call]; intros ?; simpl; tauto.
Qed.

Lemma validate_keeps W : keeps consistent (validate_orca_executable W).
Proof.
  intros s Hs. destruct (st_state (status s)) eqn:Hstate.
  - pose proof (validate_state W s) as [Hproc Hst].
    unfold consistent in *. rewrite Hproc.
    assert (Hnone : orca_proc s = None).
    { destruct (orca_proc s) eqn:Hp; [| reflexivity].
      assert (st_state (status s) = running) by (apply Hs; by eexists). congruence. }
    rewrite Hnone. split; [| intros [? ?]; discriminate].
    destruct Hst as [-> | ->]; [rewrite Hstate |]; discriminate.
  - unfold validate_orca_executable, bind, gets. rewrite Hstate. exact Hs.
  - unfold validate_orca_executable, bind, gets. rewrite Hstate. exact Hs.
Qed.

Lemma launch_keeps W : keeps consistent (launch_orca_server W).
Proof.
  intros s Hs. rewrite launch_run.
  destruct (is_None _); [destruct (getsockname W _) |]; cbv zeta;
    try destruct (Popen W _ _); simpl; try exact Hs;
    unfold consistent; simpl; split; try done; by eexists.
Qed.

Lemma get_timeout_arm_keeps :
  keeps consistent
    (let* timeout := get_timeout in
     if is_None timeout then ret tt
     else modify (log (ETimerStart (Timer timeout))) ;;
          modify (set_orca_shutdown_timer (Some (Timer timeout)))).
Proof.
  apply keeps_of_steps. unfold get_timeout, props_get. steps_structure; core_step.
Qed.

Lemma ensure_locked_keeps W : keeps consistent (ensure_orca_server_locked W).
Proof.
  unfold ensure_orca_server_locked.
  apply keeps_bind; [apply keeps_of_steps, steps_gets; typeclasses eauto | intros t].
  apply keeps_bind; [apply keeps_of_steps; steps_structure; core_step | intros _].
  apply keeps_bind; [apply keeps_of_steps, steps_gets; typeclasses eauto | intros proc].
  apply keeps_bind; [destruct proc; [apply ret_keeps | apply launch_keeps] | intros _].
  apply get_timeout_arm_keeps.
Qed.

Lemma ensure_keeps W : keeps consistent (ensure_orca_server W).
Proof.
  unfold ensure_orca_server. destruct (psutil W); cbn [negb]; [| apply raise_keeps].
  apply keeps_bind; [apply keeps_of_steps, steps_gets; typeclasses eauto | intros st].
  apply keeps_bind; [| intros _; apply ensure_locked_keeps].
  destruct st; [apply validate_keeps | apply ret_keeps | apply ret_keeps].
Qed.

Lemma request_image_with_retrying_core W kwargs :
  steps core_same (_request_image_with_retrying W kwargs).
Proof.
  unfold _request_image_with_retrying.
  apply steps_bind; [typeclasses eauto | apply steps_gets; typeclasses eauto | intros start].
  apply steps_retrying_call; try typeclasses eauto.
  - unfold request_image. steps_structure; core_step.
  - unfold random_sleep. steps_structure; core_step.
Qed.

Lemma to_image_keeps W fig format width height scale :
  keeps consistent (to_image W fig format width height scale).
Proof.
  unfold to_image.
  apply keeps_bind; [apply ensure_keeps | intros _].
  apply keeps_of_steps.
  unfold or_default, get_default_format, get_default_scale, get_default_width,
    get_default_height, props_get.
  steps_structure; apply request_image_with_retrying_core.
Qed.

Lemma write_image_keeps W fig file format scale width height :
  keeps consistent (write_image W fig file format scale width height).
Proof.
  unfold write_image.
  apply keeps_bind; [apply keeps_of_steps; steps_structure | intros fmt].
  apply keeps_bind; [apply to_image_keeps | intros img_data].
  apply keeps_of_steps. unfold write_destination. steps_structure; core_step.
Qed.

(** In every state a session can reach, the status says [running] exactly
    when the process table holds a process. *)
Lemma reachable_consistent W (s : state) : reachable W s -> consistent s.
Proof.
  induction 1 as [on_disk | op s _ IH].
  - unfold consistent. simpl. split; [discriminate | intros [? ?]; discriminate].
  - destruct op; simpl; unfold discard;
      first [ by apply set_port_keeps | by apply set_executable_keeps
            | by apply set_timeout_keeps | by apply set_default_width_keeps
            | by apply set_default_height_keeps | by apply set_default_format_keeps
            | by apply set_default_scale_keeps | by apply set_topojson_keeps
            | by apply set_mathjax_keeps | by apply set_mapbox_access_token_keeps
            | by apply update_keeps | by apply restore_defaults_keeps
            | by apply reload_keeps | by apply save_keeps
            | by apply validate_keeps | by apply reset_keeps
            | by apply shutdown_keeps_consistent | by apply ensure_keeps
            | by apply to_image_keeps | by apply write_image_keeps ].
Qed.

(** ** Setters while the server runs *)

(** C2, as the code has it: in a state of a session whose status says
    [running] (and with psutil and [Popen] calls that do not raise), assigning a valid value to [executable],
    [topojson], [mathjax] or [mapbox_access_token] returns with the status
    state at [validated] and no process handle, for [executable] as for
    the others.  The state goes back to [unvalidated] through
    [reset_orca_status]. *)
Theorem restart_setters_leave_validated W (val : value) (s : state) :
  reachable W s -> teardown_succeeds W -> st_state (status s) = running ->
  (negb (truthy val) || isinstance_str val = true ->
   exists s', set_executable W val s = (Ok tt, s') /\
              st_state (status s') = validated /\ orca_proc s' = None) /\
  (is_None val || isinstance_str val = true ->
   (exists s', set_topojson W val s = (Ok tt, s') /\
               st_state (status s') = validated /\ orca_proc s' = None) /\
   (exists s', set_mathjax W val s = (Ok tt, s') /\
               st_state (status s') = validated /\ orca_proc s' = None) /\
   (exists s', set_mapbox_access_token W val s = (Ok tt, s') /\
               st_state (status s') = validated /\ orca_proc s' = None)) /\
  (exists s', reset_orca_status W s = (Ok tt, s') /\
              st_state (status s') = unvalidated /\ orca_proc s' = None).
Proof.
  intros Hreach HW Hstate.
  destruct (proj1 (reachable_consistent W s Hreach) Hstate) as [pid Hproc].
  split; [| split].
  - intros Hval.
    destruct (set_executable_stops W pid val s HW Hproc Hval) as (s' & Hrun & Hs').
    exists s'. split; [exact Hrun | by eapply stopped_state].
  - intros Hval. repeat split.
    + destruct (set_topojson_stops W pid val s HW Hproc Hval) as (s' & Hrun & Hs').
      exists s'. split; [exact Hrun | by eapply stopped_state].
    + destruct (set_mathjax_stops W pid val s HW Hproc Hval) as (s' & Hrun & Hs').
      exists s'. split; [exact Hrun | by eapply stopped_state].
    + destruct (set_mapbox_access_token_stops W pid val s HW Hproc Hval)
        as (s' & Hrun & Hs').
      exists s'. split; [exact Hrun | by eapply stopped_state].
  - destruct (shutdown_stops W pid s HW Hproc) as (s1 & Hrun & Hs1).
    unfold reset_orca_status, bind at 1. rewrite Hrun.
    eexists. split; [reflexivity |]. simpl. split; [reflexivity | apply Hs1].
Qed.

Lemma restart_setters_leave_validated_witness :
  (exists s', set_executable good_world (VStr "/opt/orca/orca") (running_state good_world)
                = (Ok tt, s') /\
              st_state (status s') = validated /\ orca_proc s' = None) /\
  (exists s', set_topojson good_world VNone (running_state good_world) = (Ok tt, s') /\
              st_state (status s') = validated /\ orca_proc s' = None).
Proof.
  assert (Hstate : st_state (status (running_state good_world)) = running)
    by (vm_compute; reflexivity).
  assert (Hreach : reachable good_world (running_state good_world))
    by apply reachable_run, reachable_initial.
  split.
  - apply (proj1 (restart_setters_leave_validated good_world (VStr "/opt/orca/orca")
                    (running_state good_world) Hreach (good_world_teardown _ _) Hstate)).
    reflexivity.
  - apply (proj1 (proj1 (proj2 (restart_setters_leave_validated good_world VNone
                    (running_state good_world) Hreach (good_world_teardown _ _) Hstate))
                    eq_refl)).
Defined.

(** Against C2 as stated: the server runs, [executable] is assigned a new
    value, and the setter returns with the state at [validated], not
    [unvalidated]. *)
Lemma executable_setter_keeps_validation :
  st_state (status (running_state good_world)) = running /\
  (get_executable (running_state good_world)).1 = Ok (VStr "orca") /\
  exists s', set_executable good_world (VStr "/opt/orca/orca") (running_state good_world)
               = (Ok tt, s') /\
             (get_executable s').1 = Ok (VStr "/opt/orca/orca") /\
             st_state (status s') = validated /\
             st_state (status s') <> unvalidated.
Proof.
  split; [vm_compute; reflexivity |]. split; [vm_compute; reflexivity |].
  eexists. split; [vm_compute; reflexivity |].
  split; [vm_compute; reflexivity |]. split; [vm_compute; reflexivity |].
  vm_compute. discriminate.
Qed.

(** C3, as the code has it: with a running server (and psutil and [Popen]
    calls that do not raise), the setters of [executable], [topojson],
    [mathjax] and [mapbox_access_token] stop the server before they return:
    the process handle is cleared and the state is no longer [running].
    The setter of [port] does not: like those of [timeout] and the
    [default_*] properties it records the value, which the next launch
    reads, and leaves the process table, the status and the history of
    calls as they were. *)
Theorem setters_and_running_server W pid (val : value) (s : state) :
  teardown_succeeds W -> orca_proc s = Some pid ->
  (negb (truthy val) || isinstance_str val = true ->
   exists s', set_executable W val s = (Ok tt, s') /\
              orca_proc s' = None /\ st_state (status s') <> running) /\
  (is_None val || isinstance_str val = true ->
   (exists s', set_topojson W val s = (Ok tt, s') /\
               orca_proc s' = None /\ st_state (status s') <> running) /\
   (exists s', set_mathjax W val s = (Ok tt, s') /\
               orca_proc s' = None /\ st_state (status s') <> running) /\
   (exists s', set_mapbox_access_token W val s = (Ok tt, s') /\
               orca_proc s' = None /\ st_state (status s') <> running)) /\
  (is_None val || isinstance_int val = true ->
   exists s', set_port val s = (Ok tt, s') /\
              config_props s' !! "port" = Some val /\ server_untouched s s') /\
  server_untouched s (set_port val s).2 /\
  server_untouched s (set_timeout val s).2 /\
  server_untouched s (set_default_width val s).2 /\
  server_untouched s (set_default_height val s).2 /\
  server_untouched s (set_default_format val s).2 /\
  server_untouched s (set_default_scale val s).2.
Proof.
  intros HW Hproc. split; [| split; [| split]].
  - intros Hval.
    destruct (set_executable_stops W pid val s HW Hproc Hval) as (s' & Hrun & Hs').
    exists s'. split; [exact Hrun | by eapply stopped_not_running].
  - intros Hval. repeat split.
    + destruct (set_topojson_stops W pid val s HW Hproc Hval) as (s' & Hrun & Hs').
      exists s'. split; [exact Hrun | by eapply stopped_not_running].
    + destruct (set_mathjax_stops W pid val s HW Hproc Hval) as (s' & Hrun & Hs').
      exists s'. split; [exact Hrun | by eapply stopped_not_running].
    + destruct (set_mapbox_access_token_stops W pid val s HW Hproc Hval)
        as (s' & Hrun & Hs').
      exists s'. split; [exact Hrun | by eapply stopped_not_running].
  - intros Hval. unfold set_port.
    replace (negb (is_None val) && negb (isinstance_int val)) with false
      by (destruct (is_None val), (isinstance_int val); done).
    eexists. split; [reflexivity |]. simpl.
    split; [apply lookup_insert_eq | unfold server_untouched; simpl; tauto].
  - do 4 (split; [apply (recording_setter_untouched _ _ _ _ s) |]).
    split; [| apply (recording_setter_untouched _ _ _ _ s)].
    unfold set_default_format. destruct (_validate_coerce_format val).
    + apply (recording_setter_untouched _ _ false (KeyError "") s).
    + apply (recording_setter_untouched "" VNone true _ s).
Qed.

Lemma setters_and_running_server_witness :
  (exists s', set_mathjax good_world (VStr "/opt/MathJax.js") (running_state good_world)
                = (Ok tt, s') /\
              orca_proc s' = None /\ st_state (status s') <> running) /\
  (exists s', set_port (VInt 9000) (running_state good_world) = (Ok tt, s') /\
              config_props s' !! "port" = Some (VInt 9000) /\
              server_untouched (running_state good_world) s').
Proof.
  assert (Hproc : orca_proc (running_state good_world) = Some 4242)
    by (vm_compute; reflexivity).
  pose proof (setters_and_running_server good_world 4242 (VStr "/opt/MathJax.js")
                (running_state good_world) (good_world_teardown _ _) Hproc)
    as (_ & Hstr & _).
  pose proof (setters_and_running_server good_world 4242 (VInt 9000)
                (running_state good_world) (good_world_teardown _ _) Hproc)
    as (_ & _ & Hport & _).
  split; [exact (proj1 (proj2 (Hstr eq_refl))) | exact (Hport eq_refl)].
Defined.

(** Against C3 as stated: the server runs, [port] is assigned, and the
    setter returns with the process handle and the [running] state in
    place, while the next launch would pass the new port to [-p]. *)
Lemma port_setter_keeps_server_running :
  orca_proc (running_state good_world) = Some 4242 /\
  st_state (status (running_state good_world)) = running /\
  st_port (status (running_state good_world)) = VInt 5000 /\
  exists s', set_port (VInt 9000) (running_state good_world) = (Ok tt, s') /\
             (get_port s').1 = Ok (VInt 9000) /\
             orca_proc s' = Some 4242 /\
             st_state (status s') = running /\
             ~ (orca_proc s' = None /\ st_state (status s') <> running).
Proof.
  split; [vm_compute; reflexivity |]. split; [vm_compute; reflexivity |].
  split; [vm_compute; reflexivity |].
  eexists. split; [vm_compute; reflexivity |].
  split; [vm_compute; reflexivity |]. split; [vm_compute; reflexivity |].
  split; [vm_compute; reflexivity |].
  vm_compute. intros [H _]. discriminate.
Qed.

(** ** [which_py2] *)

Lemma search_files_sound (os : Os) (mode : Z) (dir : string) (files : list string)
    (name : string) :
  search_files os mode dir files = Some name ->
  _access_check os name mode = true /\
  exists thefile, thefile ∈ files /\ name = os_path_join os dir thefile.
Proof.
  induction files as [| f files IH]; simpl; [discriminate |].
  destruct (_access_check os (os_path_join os dir f) mode) eqn:Hcheck.
  - intros [= <-]. split; [exact Hcheck |]. exists f. split; [apply list_elem_of_here | reflexivity].
  - intros H. destruct (IH H) as (Hacc & f' & Hin & ->).
    split; [exact Hacc |]. exists f'. split; [by apply list_elem_of_further | reflexivity].
Qed.

Lemma search_path_sound (os : Os) (mode : Z) (files path : list string)
    (seen : gset string) (name : string) :
  search_path os mode files path seen = Some name ->
  _access_check os name mode = true /\
  exists dir thefile, dir ∈ path /\ thefile ∈ files /\ name = os_path_join os dir thefile.
Proof.
  revert seen. induction path as [| dir path IH]; intros seen; simpl; [discriminate |].
  destruct (bool_decide (os_path_normcase os dir ∈ seen)).
  - intros H. destruct (IH _ H) as (Hacc & d & f & Hd & Hf & ->).
    split; [exact Hacc |]. exists d, f. split; [by apply list_elem_of_further | by split].
  - destruct (search_files os mode dir files) as [found |] eqn:Hfiles.
    + intros [= <-]. destruct (search_files_sound _ _ _ _ _ Hfiles) as (Hacc & f & Hf & ->).
      split; [exact Hacc |]. exists dir, f. split; [apply list_elem_of_here | by split].
    + intros H. destruct (IH _ H) as (Hacc & d & f & Hd & Hf & ->).
      split; [exact Hacc |]. exists d, f. split; [by apply list_elem_of_further | by split].
Qed.

(** X1: whatever [which_py2] returns is a path that exists, is accessible
    in the requested mode and is not a directory; and for a command with a
    directory part it is the command itself. *)
Theorem which_py2_sound (os : Os) (cmd : string) (mode : Z) (path : option string)
    (name : string) :
  which_py2 os cmd mode path = Some name ->
  os_path_exists os name = true /\ os_access os name mode = true /\
  os_path_isdir os name = false /\
  (os_path_dirname os cmd <> "" -> name = cmd).
Proof.
  intros Hfound.
  assert (Hacc : _access_check os name mode = true /\
                 (os_path_dirname os cmd <> "" -> name = cmd)).
  { unfold which_py2 in Hfound.
    destruct (String.eqb_spec (os_path_dirname os cmd) "") as [Hdir | Hdir]; simpl in Hfound.
    - split; [| done].
      destruct (String.eqb _ ""); [discriminate |].
      destruct (search_lists os cmd _) as [dirs files].
      by destruct (search_path_sound _ _ _ _ _ _ Hfound).
    - destruct (_access_check os cmd mode) eqn:Hcheck; [| discriminate].
      injection Hfound as <-. by split. }
  destruct Hacc as [Hacc Hcmd]. unfold _access_check in Hacc.
  apply andb_true_iff in Hacc as [Hacc Hdir]. apply andb_true_iff in Hacc as [Hex Hacc].
  apply negb_true_iff in Hdir. done.
Qed.

Lemma which_py2_sound_witness :
  os_path_exists sample_os "/usr/local/bin/orca" = true /\
  os_access sample_os "/usr/local/bin/orca" (Z.lor F_OK X_OK) = true /\
  os_path_isdir sample_os "/usr/local/bin/orca" = false /\
  (os_path_dirname sample_os "orca" <> "" -> "/usr/local/bin/orca" = "orca").
Proof.
  apply (which_py2_sound sample_os "orca" (Z.lor F_OK X_OK) None "/usr/local/bin/orca").
  vm_compute. reflexivity.
Defined.

(** The search over PATH, when no two directories are confused by
    [normcase] and the only file tried is the command: the first directory,
    in PATH order, that holds an accessible file. *)
Lemma search_path_first (os : Os) (mode : Z) (cmd : string) (path : list string)
    (seen : gset string) :
  (forall dir, os_path_normcase os dir = dir) ->
  (forall dir, dir ∈ seen -> _access_check os (os_path_join os dir cmd) mode = false) ->
  search_path os mode [cmd] path seen =
    find (fun name => _access_check os name mode)
         (map (fun dir => os_path_join os dir cmd) path).
Proof.
  intros Hnorm. revert seen. induction path as [| dir path IH]; intros seen Hseen;
    simpl; [reflexivity |].
  rewrite Hnorm. case_bool_decide as Hin.
  - rewrite (Hseen dir Hin). by apply IH.
  - destruct (_access_check os (os_path_join os dir cmd) mode) eqn:Hcheck; [reflexivity |].
    apply IH. intros d Hd. apply elem_of_union in Hd as [Hd | Hd]; [| by apply Hseen].
    apply elem_of_singleton in Hd as ->. exact Hcheck.
Qed.

(** X2: off Windows, with a [normcase] that is the identity (POSIX), a
    command without directory part and a non-empty search path, [which_py2]
    returns the command joined to the first directory of the path, in
    order, where that file passes the access check, and [None] when there
    is none; skipping the directories already seen changes nothing. *)
Theorem which_py2_first_match (os : Os) (cmd : string) (mode : Z) (path : string) :
  win32 os = false -> (forall dir, os_path_normcase os dir = dir) ->
  os_path_dirname os cmd = "" -> path <> "" ->
  which_py2 os cmd mode (Some path) =
    find (fun name => _access_check os name mode)
         (map (fun dir => os_path_join os dir cmd) (split_on (pathsep os) path)).
Proof.
  intros Hwin Hnorm Hdir Hpath. unfold which_py2, search_lists.
  rewrite Hdir, Hwin. simpl.
  destruct (String.eqb_spec path ""); [done |].
  apply search_path_first; [exact Hnorm | set_solver].
Qed.

Lemma which_py2_first_match_witness :
  which_py2 sample_os "orca" (Z.lor F_OK X_OK)
            (Some "/opt/bin:/opt/bin:/usr/local/bin:/usr/bin") =
    find (fun name => _access_check sample_os name (Z.lor F_OK X_OK))
         (map (fun dir => os_path_join sample_os dir "orca")
              (split_on (pathsep sample_os) "/opt/bin:/opt/bin:/usr/local/bin:/usr/bin")).
Proof.
  apply which_py2_first_match; [reflexivity | reflexivity | reflexivity | discriminate].
Defined.

Example which_py2_sample :
  which_py2 sample_os "orca" (Z.lor F_OK X_OK) None = Some "/usr/local/bin/orca" /\
  which_py2 sample_os "/opt/bin/orca" (Z.lor F_OK X_OK) None = None /\
  which_py2 sample_os "bin/orca" (Z.lor F_OK X_OK) None = None /\
  which_py2 sample_os "orca" (Z.lor F_OK X_OK) (Some "") = None /\
  split_on ":" "a::b" = ["a"; ""; "b"] /\ split_on ":" "" = [""] /\
  posix_dirname "/usr//bin/orca" = "/usr//bin" /\ posix_dirname "//orca" = "//" /\
  posix_dirname "orca" = "".
Proof. vm_compute. repeat split; reflexivity. Qed.

(** ** The status over a session *)

#[local] Instance table_same_refl : Reflexive table_same.
Proof. intros s. unfold table_same. tauto. Qed.

#[local] Instance table_same_trans : Transitive table_same.
Proof. intros s1 s2 s3. unfold table_same. intuition congruence. Qed.

Lemma coherent_table (s s' : state) : table_same s s' -> coherent s -> coherent s'.
Proof. intros (Hst & Hproc & Hport). unfold coherent. by rewrite Hst, Hproc, Hport. Qed.

Lemma coherent_of_steps {A} (m : M A) : steps table_same m -> keeps coherent m.
Proof. intros Hm s Hs. eapply coherent_table; [apply Hm | exact Hs]. Qed.

(** Closes the side conditions of [steps table_same]. *)
Ltac table_step :=
  first [ apply steps_modify | apply steps_call ];
  intros ?; unfold table_same; simpl; tauto.

Lemma shutdown_noop W (s : state) :
  orca_proc s = None -> shutdown_orca_server W s = (Ok tt, s).
Proof. intros H. unfold shutdown_orca_server, bind, gets. by rewrite H. Qed.

Lemma coherent_running (s : state) :
  coherent s -> is_Some (orca_proc s) -> st_state (status s) = running.
Proof.
  unfold coherent. destruct (st_state (status s)); [| | done];
    intros (_ & _ & _ & _ & _ & Hnone) [pid Hpid]; congruence.
Qed.

Lemma shutdown_keeps_coherent W : keeps coherent (shutdown_orca_server W).
Proof.
  intros s Hs. destruct (orca_proc s) as [pid |] eqn:Hproc.
  - pose proof (coherent_running s Hs ltac:(by eexists)) as Hrun.
    pose proof (shutdown_outcome W s) as Hout.
    destruct (shutdown_orca_server W s) as [[[] | e] s']; simpl.
    + destruct Hout as [[Hnone _] | Hstopped]; [congruence |].
      destruct Hstopped as (Hp & _ & _ & Hstatus & _).
      unfold coherent in *. rewrite Hrun in Hs. rewrite Hstatus. simpl.
      destruct Hs as (He & Hv & _). done.
    + destruct Hout as [_ [l ->]]. exact Hs.
  - by rewrite shutdown_noop.
Qed.

Lemma reset_keeps_coherent W : keeps coherent (reset_orca_status W).
Proof.
  intros s Hs. unfold reset_orca_status, bind at 1.
  pose proof (shutdown_outcome W s) as Hout.
  pose proof (shutdown_keeps_coherent W s Hs) as Hkeep.
  destruct (shutdown_orca_server W s) as [[[] | e] s']; simpl in *; [| exact Hkeep].
  assert (Hproc : orca_proc s' = None).
  { destruct Hout as [[Hnone ->] | Hstopped]; [exact Hnone | apply Hstopped]. }
  unfold coherent in *. simpl.
  destruct (st_state (status s')).
  - destruct Hkeep as (_ & _ & ? & ? & ? & ?). done.
  - destruct Hkeep as (_ & _ & ? & ? & ? & ?). done.
  - destruct Hkeep as (_ & _ & [pid Hpid] & _). congruence.
Qed.

(** [validate_orca_executable], run: from a state other than
    [unvalidated] it returns and nothing has changed; from [unvalidated] it
    raises with the status it found, or returns with a status that shows
    [validated], an executable and a version. *)
Lemma validate_outcome W (s : state) :
  match validate_orca_executable W s with
  | (Ok _, s') =>
      (st_state (status s) <> unvalidated /\ s' = s) \/
      (st_state (status s) = unvalidated /\
       exists executable version,
         status s' = mkStatus validated (Some executable) (Some version)
                       (st_pid (status s)) (st_port (status s)) (st_command (status s)))
  | (Raise _, s') => st_state (status s) = unvalidated /\ status s' = status s
  end.
Proof.
  unfold validate_orca_executable, get_executable, props_get, which.
  cbv [bind gets call try_except raise ret modify].
  destruct (st_state (status s)) eqn:Hstate; [| by left | by left].
  repeat match goal with
         | |- context [match ?x with _ => _ end] =>
             match x with
             | context [match _ with _ => _ end] => fail 1
             | _ => destruct x eqn:?
             end
         end; simpl; try done.
  all: right; split; [reflexivity |]; by eexists _, _.
Qed.

Lemma validate_keeps_coherent W : keeps coherent (validate_orca_executable W).
Proof.
  intros s Hs. pose proof (validate_outcome W s) as Hout.
  destruct (validate_status_only W s) as (_ & Hproc & _ & Hport & _).
  destruct (validate_orca_executable W s) as [[[] | e] s']; simpl in *.
  - destruct Hout as [[_ ->] | (Hstate & ex & v & Hnew)]; [exact Hs |].
    unfold coherent in *. rewrite Hstate in Hs. rewrite Hnew. simpl.
    destruct Hs as (_ & _ & Hpid & Hp & Hc & Hnone). rewrite Hproc. by repeat split.
  - destruct Hout as [_ Hsame]. apply (coherent_table s); [by split | exact Hs].
Qed.

Lemma spec_command_port W (s : state) (port : value) :
  spec_command_of W s port !! 3%nat = Some (VStr (py_str port)).
Proof. reflexivity. Qed.

(** The launch block, from a validated state without a process. *)
Lemma launch_keeps_coherent W (s : state) :
  coherent s -> st_state (status s) = validated -> coherent (launch_orca_server W s).2.
Proof.
  intros Hs Hstate. rewrite launch_run.
  unfold coherent in Hs. rewrite Hstate in Hs.
  destruct Hs as (He & Hv & Hpid & Hp & Hc & Hnone).
  assert (Hquiet : forall s1, status s1 = status s -> orca_proc s1 = None -> coherent s1).
  { intros s1 Hst Hpr. unfold coherent. rewrite Hst, Hstate, Hpr. by repeat split. }
  destruct (is_None (config_value s "port" VNone)) eqn:Hcfg;
    [destruct (getsockname W (trace s)) as [p | e] |]; cbv zeta;
    try destruct (Popen W _ _); simpl; try (by apply Hquiet).
  - unfold coherent. simpl. repeat split; try done. eexists. split; reflexivity.
  - unfold coherent. simpl. repeat split; try done. eexists. split; reflexivity.
Qed.

Lemma coherent_validated (s : state) :
  coherent s -> st_state (status s) <> unvalidated -> orca_proc s = None ->
  st_state (status s) = validated.
Proof.
  unfold coherent. destruct (st_state (status s)); [done | done |].
  intros (_ & _ & [pid Hpid] & _) _ Hnone. congruence.
Qed.

Lemma arm_timer_table :
  steps table_same
    (let* timeout := get_timeout in
     if is_None timeout then ret tt
     else modify (log (ETimerStart (Timer timeout))) ;;
          modify (set_orca_shutdown_timer (Some (Timer timeout)))).
Proof. unfold get_timeout, props_get. steps_structure; table_step. Qed.

Lemma ensure_locked_keeps_coherent W (s : state) :
  coherent s -> st_state (status s) <> unvalidated ->
  coherent (ensure_orca_server_locked W s).2.
Proof.
  intros Hs Hstate. unfold ensure_orca_server_locked.
  unfold bind at 1, gets at 1. unfold bind at 1.
  set (s1 := (match orca_shutdown_timer s with
              | Some t => modify (log (ETimerCancel t))
              | None => ret tt
              end s).2).
  assert (Hs1 : table_same s s1).
  { subst s1. destruct (orca_shutdown_timer s); unfold table_same; simpl; tauto. }
  assert (Hrun : match orca_shutdown_timer s with
                 | Some t => modify (log (ETimerCancel t))
                 | None => ret tt
                 end s = (Ok tt, s1)).
  { subst s1. by destruct (orca_shutdown_timer s). }
  rewrite Hrun. pose proof (coherent_table s s1 Hs1 Hs) as Hc1.
  assert (Hstate1 : st_state (status s1) <> unvalidated)
    by (destruct Hs1 as [-> _]; exact Hstate).
  unfold bind at 1, gets at 1. unfold bind at 1.
  assert (Hmid : coherent (match orca_proc s1 with
                           | Some _ => ret tt
                           | None => launch_orca_server W
                           end s1).2).
  { destruct (orca_proc s1) eqn:Hproc; [exact Hc1 |].
    apply launch_keeps_coherent; [exact Hc1 |]. by apply coherent_validated. }
  destruct (match orca_proc s1 with
            | Some _ => ret tt
            | None => launch_orca_server W
            end s1) as [[[] | e] s2]; simpl in Hmid; [| exact Hmid].
  by apply (coherent_of_steps _ arm_timer_table).
Qed.

Lemma ensure_keeps_coherent W : keeps coherent (ensure_orca_server W).
Proof.
  intros s Hs. unfold ensure_orca_server.
  destruct (psutil W); cbn [negb]; [| exact Hs].
  unfold bind at 1, gets at 1. unfold bind at 1.
  destruct (st_state (status s)) eqn:Hstate.
  - pose proof (validate_keeps_coherent W s Hs) as Hkeep.
    pose proof (validate_outcome W s) as Hout.
    destruct (validate_orca_executable W s) as [[[] | e] s1]; simpl in *; [| exact Hkeep].
    apply ensure_locked_keeps_coherent; [exact Hkeep |].
    destruct Hout as [[Hne _] | (_ & ex & v & ->)]; [congruence | discriminate].
  - apply ensure_locked_keeps_coherent; [exact Hs | by rewrite Hstate].
  - apply ensure_locked_keeps_coherent; [exact Hs | by rewrite Hstate].
Qed.

Lemma props_set_table (k : string) (val : value) : steps table_same (props_set k val).
Proof. unfold props_set. table_step. Qed.

Lemma recording_setter_coherent (k : string) (val : value) (bad : bool) (e : exn) :
  keeps coherent (if bad then raise e else props_set k val).
Proof.
  destruct bad; [by intros s Hs | apply coherent_of_steps, props_set_table].
Qed.

Lemma restarting_setter_coherent W (k : string) (val : value) (bad : bool) (e : exn) :
  keeps coherent (if bad then raise e else props_set k val ;; shutdown_orca_server W).
Proof.
  destruct bad; [by intros s Hs |].
  apply keeps_bind; [apply coherent_of_steps, props_set_table | intros _].
  apply shutdown_keeps_coherent.
Qed.

Lemma set_port_coherent val : keeps coherent (set_port val).
Proof. apply recording_setter_coherent. Qed.

Lemma set_timeout_coherent val : keeps coherent (set_timeout val).
Proof. apply recording_setter_coherent. Qed.

Lemma set_default_width_coherent val : keeps coherent (set_default_width val).
Proof. apply recording_setter_coherent. Qed.

Lemma set_default_height_coherent val : keeps coherent (set_default_height val).
Proof. apply recording_setter_coherent. Qed.

Lemma set_default_scale_coherent val : keeps coherent (set_default_scale val).
Proof. apply recording_setter_coherent. Qed.

Lemma set_default_format_coherent val : keeps coherent (set_default_format val).
Proof.
  unfold set_default_format. destruct (_validate_coerce_format val);
    [apply coherent_of_steps, props_set_table | apply raise_keeps].
Qed.

Lemma set_executable_coherent W val : keeps coherent (set_executable W val).
Proof. unfold set_executable. cbv zeta. apply restarting_setter_coherent. Qed.

Lemma set_topojson_coherent W val : keeps coherent (set_topojson W val).
Proof. apply restarting_setter_coherent. Qed.

Lemma set_mathjax_coherent W val : keeps coherent (set_mathjax W val).
Proof. apply restarting_setter_coherent. Qed.

Lemma set_mapbox_access_token_coherent W val :
  keeps coherent (set_mapbox_access_token W val).
Proof. apply restarting_setter_coherent. Qed.

Create HintDb orca_coherent.
#[local] Hint Resolve raise_keeps ret_keeps set_port_coherent set_timeout_coherent
  set_default_width_coherent set_default_height_coherent set_default_scale_coherent
  set_default_format_coherent set_executable_coherent set_topojson_coherent
  set_mathjax_coherent set_mapbox_access_token_coherent : orca_coherent.

Lemma setattr_keeps_coherent W (k : string) (v : value) : keeps coherent (setattr W k v).
Proof.
  unfold setattr.
  repeat match goal with
         | |- keeps _ (if ?b then _ else _) => destruct b
         end; auto with orca_coherent.
Qed.

Lemma update_keeps_coherent W d kwargs : keeps coherent (update W d kwargs).
Proof.
  unfold update. destruct d as [d | v]; [| apply raise_keeps].
  apply keeps_bind.
  - apply keeps_for_each. intros kv. apply coherent_of_steps. steps_structure.
  - intros _. apply keeps_for_each. intros kv. apply setattr_keeps_coherent.
Qed.

Lemma restore_defaults_keeps_coherent W b : keeps coherent (restore_defaults W b).
Proof.
  unfold restore_defaults. apply keeps_bind.
  - apply coherent_of_steps. table_step.
  - intros _. destruct b; [apply reset_keeps_coherent | apply ret_keeps].
Qed.

Lemma reload_table b : steps table_same (reload b).
Proof.
  unfold reload, warn, props_set.
  steps_structure; first [table_step | intros ?; unfold table_same; simpl; tauto].
Qed.

Lemma save_table W : steps table_same (save W).
Proof. unfold save. steps_structure; table_step. Qed.

Lemma request_image_with_retrying_table W kwargs :
  steps table_same (_request_image_with_retrying W kwargs).
Proof.
  unfold _request_image_with_retrying.
  apply steps_bind; [typeclasses eauto | apply steps_gets; typeclasses eauto | intros start].
  apply steps_retrying_call; try typeclasses eauto.
  - unfold request_image. steps_structure; table_step.
  - unfold random_sleep. steps_structure; table_step.
Qed.

Lemma to_image_keeps_coherent W fig format width height scale :
  keeps coherent (to_image W fig format width height scale).
Proof.
  unfold to_image.
  apply keeps_bind; [apply ensure_keeps_coherent | intros _].
  apply coherent_of_steps.
  unfold or_default, get_default_format, get_default_scale, get_default_width,
    get_default_height, props_get.
  steps_structure; apply request_image_with_retrying_table.
Qed.

Lemma write_image_keeps_coherent W fig file format scale width height :
  keeps coherent (write_image W fig file format scale width height).
Proof.
  unfold write_image.
  apply keeps_bind; [apply coherent_of_steps; steps_structure | intros fmt].
  apply keeps_bind; [apply to_image_keeps_coherent | intros img_data].
  apply coherent_of_steps. unfold write_destination. steps_structure; table_step.
Qed.

(** X3: in every state a session can reach, by any operations with any
    arguments in any world, the status is as its docstrings say:
    [executable] and [version] are [None] exactly when the state is
    [unvalidated]; [pid], [port] and [command] are [None] unless it is
    [running]; and when it is [running] there is a process, the status
    shows its pid and the port the requests go to, and the [-p] argument of
    the recorded command is that port. *)
Theorem status_is_coherent W (s : state) : reachable W s -> coherent s.
Proof.
  induction 1 as [on_disk | op s _ IH].
  - unfold coherent. simpl. by repeat split.
  - destruct op; simpl; unfold discard;
      first [ by apply set_port_coherent | by apply set_executable_coherent
            | by apply set_timeout_coherent | by apply set_default_width_coherent
            | by apply set_default_height_coherent | by apply set_default_format_coherent
            | by apply set_default_scale_coherent | by apply set_topojson_coherent
            | by apply set_mathjax_coherent | by apply set_mapbox_access_token_coherent
            | by apply update_keeps_coherent | by apply restore_defaults_keeps_coherent
            | by apply (coherent_of_steps _ (reload_table _))
            | by apply (coherent_of_steps _ (save_table _))
            | by apply validate_keeps_coherent | by apply reset_keeps_coherent
            | by apply shutdown_keeps_coherent | by apply ensure_keeps_coherent
            | by apply to_image_keeps_coherent | by apply write_image_keeps_coherent ].
Qed.

Lemma status_is_coherent_witness :
  coherent (run good_world (SetPort (VInt 9000)) (running_state good_world)) /\
  coherent (run good_world ShutdownOrcaServer (running_state good_world)) /\
  coherent (run no_spawn_world EnsureOrcaServer (initial_state FileAbsent)).
Proof.
  split; [| split].
  - apply (status_is_coherent good_world).
    apply reachable_run, reachable_run, reachable_initial.
  - apply (status_is_coherent good_world).
    apply reachable_run, reachable_run, reachable_initial.
  - apply (status_is_coherent no_spawn_world).
    apply reachable_run, reachable_initial.
Defined.

(** ** Validation, shutdown and a second call of [ensure_orca_server] *)

(** X4: [validate_orca_executable] is all or nothing.  Whatever the
    world answers, it touches nothing but the status and the history of
    calls.  From a state other than [unvalidated] it returns with nothing
    changed.  From [unvalidated] it either raises, and the status is the
    one it found, or returns, and the status shows [validated] with an
    executable and a version and is otherwise the one it found. *)
Theorem validation_all_or_nothing W (s : state) :
  status_only s (validate_orca_executable W s).2 /\
  match validate_orca_executable W s with
  | (Ok _, s') =>
      (st_state (status s) <> unvalidated /\ s' = s) \/
      (st_state (status s) = unvalidated /\
       exists executable version,
         status s' = mkStatus validated (Some executable) (Some version)
                       (st_pid (status s)) (st_port (status s)) (st_command (status s)))
  | (Raise _, s') => st_state (status s) = unvalidated /\ status s' = status s
  end.
Proof. split; [apply validate_status_only | apply validate_outcome]. Qed.

(** X5: the search for the executable.  When the configured name is not
    found, [orca.js] is tried next exactly when the configured name is
    [orca]; when nothing is found the call raises the not-found
    [ValueError] after those lookups, with the status untouched. *)
Theorem executable_not_found W (s : state) :
  st_state (status s) = unvalidated ->
  shutil_which W (trace s) (config_value s "executable" (VStr "orca")) = Ok None ->
  (value_is_orca (config_value s "executable" (VStr "orca")) = false ->
   validate_orca_executable W s =
     (Raise (ValueError (ExecutableNotFound (config_value s "executable" (VStr "orca")))),
      extend [EWhich (config_value s "executable" (VStr "orca"))] s)) /\
  (value_is_orca (config_value s "executable" (VStr "orca")) = true ->
   shutil_which W (trace s ++ [EWhich (config_value s "executable" (VStr "orca"))])
                (VStr "orca.js") = Ok None ->
   validate_orca_executable W s =
     (Raise (ValueError (ExecutableNotFound (config_value s "executable" (VStr "orca")))),
      extend [EWhich (config_value s "executable" (VStr "orca")); EWhich (VStr "orca.js")] s)).
Proof.
  intros Hstate Hwhich.
  unfold validate_orca_executable, get_executable, props_get, which.
  cbv [bind gets call try_except raise ret modify]. rewrite Hstate.
  fold (config_value s "executable" (VStr "orca")). rewrite Hwhich.
  split; intros Horca.
  - rewrite Horca. reflexivity.
  - intros Hjs. rewrite Horca. simpl. rewrite Hjs. unfold extend, log. simpl.
    by rewrite <- app_assoc.
Qed.

Lemma executable_not_found_witness :
  validate_orca_executable no_orca_world (initial_state FileAbsent) =
    (Raise (ValueError (ExecutableNotFound (VStr "orca"))),
     extend [EWhich (VStr "orca"); EWhich (VStr "orca.js")] (initial_state FileAbsent)) /\
  validate_orca_executable no_orca_world
      (run no_orca_world (SetExecutable (VStr "/opt/orca")) (initial_state FileAbsent)) =
    (Raise (ValueError (ExecutableNotFound (VStr "/opt/orca"))),
     extend [EWhich (VStr "/opt/orca")]
            (run no_orca_world (SetExecutable (VStr "/opt/orca")) (initial_state FileAbsent))).
Proof.
  split.
  - apply (proj2 (executable_not_found no_orca_world (initial_state FileAbsent)
                    eq_refl eq_refl)); reflexivity.
  - apply (proj1 (executable_not_found no_orca_world
                    (run no_orca_world (SetExecutable (VStr "/opt/orca"))
                       (initial_state FileAbsent)) eq_refl eq_refl)).
    reflexivity.
Defined.

(** Installed through npm: only [orca.js] is on the path, and the default
    configuration validates it. *)
Example npm_orca_is_found :
  st_executable (status (run npm_world ValidateOrcaExecutable (initial_state FileAbsent)))
    = Some "/usr/lib/node_modules/.bin/orca.js" /\
  st_version (status (run npm_world ValidateOrcaExecutable (initial_state FileAbsent)))
    = Some "1.1.1" /\
  st_state (status (run npm_world ValidateOrcaExecutable (initial_state FileAbsent)))
    = validated.
Proof. vm_compute. repeat split; reflexivity. Qed.

Lemma terminate_children_run W (kids : list Z) (s : state) :
  (forall h child, child_terminate W h child = Ok tt) ->
  for_each kids (fun child =>
      call (EChildTerminate child) (fun h => child_terminate W h child)) s
    = (Ok tt, extend (map EChildTerminate kids) s).
Proof.
  intros Hok. revert s. induction kids as [| k kids IH]; intros s.
  - simpl. unfold ret. by rewrite extend_nil.
  - simpl. unfold bind at 1. unfold call at 1. rewrite Hok, IH. by rewrite extend_log.
Qed.

Lemma terminate_process_tree_run W pid (kids : list Z) (s : state) :
  teardown_succeeds W -> children W (trace s) pid = Ok kids ->
  terminate_process_tree W pid s =
    (Ok tt, extend (EChildren pid :: map EChildTerminate kids
                      ++ [ETerminate pid; ECommunicate pid; EWait pid]) s).
Proof.
  intros (_ & Hchild & Hterm & Hcomm & Hwait) Hk.
  unfold terminate_process_tree.
  unfold bind at 1. unfold call at 1. rewrite Hk.
  unfold bind at 1. rewrite terminate_children_run by exact Hchild.
  unfold bind, call. rewrite Hterm, Hcomm, Hwait.
  rewrite extend_log. unfold log, extend. simpl.
  rewrite <- !app_assoc. reflexivity.
Qed.

(** X6: a shutdown that goes through.  With a process, and psutil and
    [Popen] calls that do not raise, [shutdown_orca_server] returns; the
    children of the process are terminated before the process itself,
    which is then waited for, and the timer is cancelled last; afterwards
    there is no process handle and no timer, the status is [validated]
    with [pid], [port] and [command] at [None], and the executable and the
    version are the ones validated before. *)
Theorem shutdown_stops_server W pid (s : state) :
  teardown_succeeds W -> orca_proc s = Some pid ->
  exists kids s',
    children W (trace s) pid = Ok kids /\
    shutdown_orca_server W s = (Ok tt, s') /\
    trace s' = (trace s ++ shutdown_calls pid kids (orca_shutdown_timer s))%list /\
    stopped s s'.
Proof.
  intros HW Hproc.
  destruct (proj1 HW (trace s) pid) as [kids Hk]. exists kids.
  unfold shutdown_orca_server, bind at 1, gets at 1. rewrite Hproc.
  unfold bind at 1, gets at 1. rewrite Hproc.
  unfold bind at 1. rewrite (terminate_process_tree_run W pid kids s HW Hk).
  unfold clear_process_state. cbv [bind gets modify ret]. simpl.
  unfold shutdown_calls.
  destruct (orca_shutdown_timer s) as [t |] eqn:Ht; simpl; eexists;
    (split; [exact Hk |]); (split; [reflexivity |]); simpl;
    (split; [| unfold stopped; simpl; repeat split; first [reflexivity | exact Ht]]).
  - rewrite <- ?app_assoc. simpl. rewrite <- ?app_assoc. reflexivity.
  - rewrite ?app_nil_r. reflexivity.
Qed.

Lemma shutdown_stops_server_witness :
  exists kids s',
    children good_world (trace (running_state good_world)) 4242 = Ok kids /\
    shutdown_orca_server good_world (running_state good_world) = (Ok tt, s') /\
    trace s' = (trace (running_state good_world)
                ++ shutdown_calls 4242 kids
                     (orca_shutdown_timer (running_state good_world)))%list /\
    stopped (running_state good_world) s'.
Proof.
  apply (shutdown_stops_server good_world 4242 (running_state good_world)
           (good_world_teardown _ _)).
  vm_compute. reflexivity.
Defined.

(** X7: a shutdown that fails.  When [shutdown_orca_server] raises, one
    of its psutil or [Popen] calls raised, and nothing but the history of
    calls has changed: the process handle, the timer and the status are
    those of a server that still runs. *)
Theorem shutdown_failure_changes_nothing W (s s' : state) (e : exn) :
  shutdown_orca_server W s = (Raise e, s') ->
  is_Some (orca_proc s) /\ history_only s s' /\
  orca_proc s' = orca_proc s /\ status s' = status s /\
  orca_shutdown_timer s' = orca_shutdown_timer s.
Proof.
  intros Hrun. pose proof (shutdown_outcome W s) as Hout. rewrite Hrun in Hout.
  destruct Hout as [Hproc [l ->]]. split; [exact Hproc |]. split; [by exists l | done].
Qed.

Lemma shutdown_failure_changes_nothing_witness :
  is_Some (orca_proc (running_state stuck_world)) /\
  history_only (running_state stuck_world)
               (log (EChildren 4242) (running_state stuck_world)) /\
  orca_proc (log (EChildren 4242) (running_state stuck_world))
    = orca_proc (running_state stuck_world) /\
  status (log (EChildren 4242) (running_state stuck_world))
    = status (running_state stuck_world) /\
  orca_shutdown_timer (log (EChildren 4242) (running_state stuck_world))
    = orca_shutdown_timer (running_state stuck_world).
Proof.
  apply (shutdown_failure_changes_nothing stuck_world (running_state stuck_world)
           (log (EChildren 4242) (running_state stuck_world))
           (External "NoSuchProcess")).
  vm_compute. reflexivity.
Defined.




(** ** The configuration: values, defaults, updates *)

(** X9: a value of the wrong type is rejected before anything is
    assigned: each setter raises its [ValueError] and the state is the one
    before the call, so that a running server keeps running.  [port],
    [default_width] and [default_height] take [None] or an [int];
    [timeout] and [default_scale] [None] or a number; [topojson],
    [mathjax] and [mapbox_access_token] [None] or a string; [executable]
    a string, or anything false; [default_format] what
    [_validate_coerce_format] accepts. *)
Theorem invalid_values_are_rejected W (val : value) (s : state) :
  (is_None val || isinstance_int val = false ->
   set_port val s = (Raise (ValueError (BadPort val)), s) /\
   set_default_width val s = (Raise (ValueError (BadDefaultWidth val)), s) /\
   set_default_height val s = (Raise (ValueError (BadDefaultHeight val)), s)) /\
  (is_None val || isinstance_number val = false ->
   set_timeout val s = (Raise (ValueError (BadTimeout val)), s) /\
   set_default_scale val s = (Raise (ValueError (BadDefaultScale val)), s)) /\
  (is_None val || isinstance_str val = false ->
   set_topojson W val s = (Raise (ValueError (BadTopojson val)), s) /\
   set_mathjax W val s = (Raise (ValueError (BadMathjax val)), s) /\
   set_mapbox_access_token W val s = (Raise (ValueError (BadMapboxAccessToken val)), s)) /\
  (truthy val = true -> isinstance_str val = false ->
   set_executable W val s = (Raise (ValueError (BadExecutable val)), s)) /\
  (forall e, _validate_coerce_format val = Raise e ->
             set_default_format val s = (Raise e, s)).
Proof.
  split; [| split; [| split; [| split]]].
  - intros H. apply orb_false_iff in H as [H1 H2].
    unfold set_port, set_default_width, set_default_height. by rewrite H1, H2.
  - intros H. apply orb_false_iff in H as [H1 H2].
    unfold set_timeout, set_default_scale. by rewrite H1, H2.
  - intros H. apply orb_false_iff in H as [H1 H2].
    unfold set_topojson, set_mathjax, set_mapbox_access_token. by rewrite H1, H2.
  - intros H1 H2. unfold set_executable. rewrite H1. cbn [negb]. cbv zeta.
    by rewrite H2.
  - intros e He. unfold set_default_format. by rewrite He.
Qed.

Lemma invalid_values_are_rejected_witness :
  set_port (VStr "8080") (running_state good_world)
    = (Raise (ValueError (BadPort (VStr "8080"))), running_state good_world) /\
  set_timeout (VStr "30") (running_state good_world)
    = (Raise (ValueError (BadTimeout (VStr "30"))), running_state good_world) /\
  set_mathjax good_world (VInt 3) (running_state good_world)
    = (Raise (ValueError (BadMathjax (VInt 3))), running_state good_world) /\
  set_executable good_world (VInt 3) (running_state good_world)
    = (Raise (ValueError (BadExecutable (VInt 3))), running_state good_world) /\
  set_default_format (VStr "bmp") (running_state good_world)
    = (Raise (ValueError (InvalidFormat (VStr "bmp"))), running_state good_world).
Proof.
  pose proof (invalid_values_are_rejected good_world (VStr "8080")
                (running_state good_world)) as (Hint & _).
  pose proof (invalid_values_are_rejected good_world (VStr "30")
                (running_state good_world)) as (_ & Hnum & _).
  pose proof (invalid_values_are_rejected good_world (VInt 3)
                (running_state good_world)) as (_ & _ & Hstr & Hexe & _).
  pose proof (invalid_values_are_rejected good_world (VStr "bmp")
                (running_state good_world)) as (_ & _ & _ & _ & Hfmt).
  split; [exact (proj1 (Hint eq_refl)) |].
  split; [exact (proj1 (Hnum eq_refl)) |].
  split; [exact (proj1 (proj2 (Hstr eq_refl))) |].
  split; [exact (Hexe eq_refl eq_refl) |].
  apply Hfmt. vm_compute. reflexivity.
Defined.

(** A [bool] is an [int]: [True] is accepted as a port, and is the [-p]
    argument [True] of the next launch. *)
Example bool_is_accepted_as_port :
  (get_port (run good_world (SetPort (VBool true)) (initial_state FileAbsent))).1
    = Ok (VBool true) /\
  (st_command (status (run good_world EnsureOrcaServer
     (run good_world (SetPort (VBool true)) (initial_state FileAbsent))))) ≫= (.!! 3%nat)
    = Some (VStr "True").
Proof. vm_compute. split; reflexivity. Qed.

Lemma shutdown_config W (s : state) :
  config_props (shutdown_orca_server W s).2 = config_props s.
Proof.
  pose proof (shutdown_outcome W s) as Hout.
  destruct (shutdown_orca_server W s) as [[[] | e] s']; simpl.
  - destruct Hout as [[_ ->] | Hstopped]; [reflexivity | apply Hstopped].
  - by destruct Hout as [_ [l ->]].
Qed.

Lemma assign_shutdown_config W (k : string) (val : value) (s : state) :
  config_props ((props_set k val ;; shutdown_orca_server W) s).2
    = <[k := val]> (config_props s).
Proof.
  unfold bind, props_set, modify.
  pose proof (shutdown_config W (set_config_props (insert k val) s)) as H.
  destruct (shutdown_orca_server W _) as [[[] | e] s']; exact H.
Qed.

(** X10: assigning [None] stores [None]; it does not bring the default
    back.  After the assignment the getters of [default_scale],
    [default_format], [topojson] and [mathjax] answer [None], not [1],
    [png], the packaged topojson directory or the MathJax URL, whether or
    not the shutdown that follows the last two raises.  [executable] is the
    exception: [None] stores [orca].  [restore_defaults] is what brings all
    defaults back. *)
Theorem none_is_stored W (s : state) :
  (get_default_scale (set_default_scale VNone s).2).1 = Ok VNone /\
  (get_default_format (set_default_format VNone s).2).1 = Ok VNone /\
  (get_topojson W (set_topojson W VNone s).2).1 = Ok VNone /\
  (get_mathjax (set_mathjax W VNone s).2).1 = Ok VNone /\
  (get_executable (set_executable W VNone s).2).1 = Ok (VStr "orca") /\
  (get_default_scale (restore_defaults W false s).2).1 = Ok (VInt 1) /\
  (get_default_format (restore_defaults W false s).2).1 = Ok (VStr "png") /\
  (get_topojson W (restore_defaults W false s).2).1 = Ok (default_topojson W) /\
  (get_mathjax (restore_defaults W false s).2).1 = Ok default_mathjax /\
  (get_executable (restore_defaults W false s).2).1 = Ok (VStr "orca").
Proof.
  unfold get_default_scale, get_default_format, get_topojson, get_mathjax,
    get_executable, props_get, gets. cbn [fst].
  split; [simpl; by rewrite lookup_insert_eq |].
  split; [simpl; by rewrite lookup_insert_eq |].
  split; [unfold set_topojson; cbn [is_None negb andb];
          by rewrite assign_shutdown_config, lookup_insert_eq |].
  split; [unfold set_mathjax; cbn [is_None negb andb];
          by rewrite assign_shutdown_config, lookup_insert_eq |].
  split; [unfold set_executable; cbn [truthy negb isinstance_str];
          by rewrite assign_shutdown_config, lookup_insert_eq |].
  simpl. rewrite !lookup_empty. repeat split; reflexivity.
Qed.

(** When every key of the updates is in [_props], [update] is the loop of
    assignments. *)
Lemma update_of_known_keys W d kwargs (s : state) :
  (forall kv, kv ∈ dict_update d kwargs -> is_Some (config_props s !! kv.1)) ->
  update W (ADict d) kwargs s =
    for_each (dict_update d kwargs) (fun kv => setattr W kv.1 kv.2) s.
Proof.
  intros Hknown. unfold update, bind at 1. rewrite validate_keys_outcome.
  destruct (find _ (dict_update d kwargs)) as [kv |] eqn:Hfind; [| reflexivity].
  apply find_some in Hfind as [Hin Hmiss]. apply list_elem_of_In in Hin.
  apply negb_true_iff, bool_decide_eq_false in Hmiss. by destruct Hmiss, (Hknown kv).
Qed.

(** X11: [update] checks the names before it assigns anything, but the
    values only as it assigns them, one property after the other: when
    the value of a later property is rejected, the call raises and the
    earlier properties keep their new values.  Here [timeout] gets a valid
    value and [port] an invalid one. *)
Theorem update_is_applied_until_a_value_fails W (timeout port : value) (s : state) :
  is_Some (config_props s !! "timeout") -> is_Some (config_props s !! "port") ->
  is_None timeout || isinstance_number timeout = true ->
  is_None port || isinstance_int port = false ->
  update W (ADict [("timeout", timeout); ("port", port)]) [] s =
    (Raise (ValueError (BadPort port)), set_config_props (insert "timeout" timeout) s) /\
  update W (ADict [("port", port); ("timeout", timeout)]) [] s =
    (Raise (ValueError (BadPort port)), s).
Proof.
  intros Ht Hp Hvalid Hinvalid.
  apply orb_false_iff in Hinvalid as [Hp1 Hp2].
  assert (Hto : negb (is_None timeout) && negb (isinstance_number timeout) = false)
    by (destruct (is_None timeout), (isinstance_number timeout); done).
  split.
  - rewrite update_of_known_keys.
    + simpl. unfold bind at 1. unfold setattr at 1. simpl.
      unfold set_timeout. rewrite Hto. unfold props_set, modify.
      unfold bind at 1. unfold setattr. simpl. unfold set_port. by rewrite Hp1, Hp2.
    + intros kv Hin. apply list_elem_of_In in Hin. simpl in Hin.
      destruct Hin as [<- | [<- | []]]; assumption.
  - rewrite update_of_known_keys.
    + simpl. unfold bind at 1. unfold setattr at 1. simpl.
      unfold set_port. by rewrite Hp1, Hp2.
    + intros kv Hin. apply list_elem_of_In in Hin. simpl in Hin.
      destruct Hin as [<- | [<- | []]]; assumption.
Qed.

Lemma update_is_applied_until_a_value_fails_witness :
  let s := run good_world (SetPort (VInt 8080))
             (run good_world (SetTimeout VNone) (initial_state FileAbsent)) in
  update good_world (ADict [("timeout", VInt 30); ("port", VStr "9000")]) [] s =
    (Raise (ValueError (BadPort (VStr "9000"))),
     set_config_props (insert "timeout" (VInt 30)) s) /\
  update good_world (ADict [("port", VStr "9000"); ("timeout", VInt 30)]) [] s =
    (Raise (ValueError (BadPort (VStr "9000"))), s).
Proof.
  apply (update_is_applied_until_a_value_fails good_world (VInt 30) (VStr "9000"));
    try reflexivity; vm_compute; by eexists.
Defined.


(** ** [save] and [reload] in one session *)

Lemma reload_loop_run (orca_props : list (string * value)) (s : state) :
  for_each orca_props (fun kv =>
      let* known := gets (fun s => bool_decide (is_Some (config_props s !! kv.1))) in
      when known (props_set kv.1 kv.2)) s
  = (Ok tt, set_config_props (fun _ => reloaded_props (config_props s) orca_props) s).
Proof.
  revert s. induction orca_props as [| kv orca_props IH]; intros s.
  - by destruct s.
  - simpl. unfold bind at 1. unfold bind at 1, gets at 1.
    destruct (bool_decide (is_Some (config_props s !! kv.1))); simpl.
    + unfold props_set, modify. by rewrite IH.
    + by rewrite IH.
Qed.

Lemma reloaded_props_lookup (items : list (string * value)) (props : gmap string value)
    (k : string) :
  NoDup items.*1 ->
  reloaded_props props items !! k =
    match props !! k with
    | None => None
    | Some v => Some (default v ((list_to_map items : gmap string value) !! k))
    end.
Proof.
  revert props. induction items as [| [k0 v0] items IH]; intros props Hnodup.
  - simpl. rewrite lookup_empty. by destruct (props !! k).
  - apply NoDup_cons in Hnodup as [Hfresh Hnodup]. simpl.
    rewrite (IH _ Hnodup). clear IH.
    destruct (decide (k = k0)) as [-> | Hne].
    + rewrite lookup_insert_eq.
      rewrite (not_elem_of_list_to_map_1 _ _ Hfresh).
      case_bool_decide as Hknown.
      * rewrite lookup_insert_eq. by destruct Hknown as [v ->].
      * destruct (props !! k0); [exfalso; apply Hknown; by eexists | reflexivity].
    + rewrite lookup_insert_ne by done.
      case_bool_decide; [by rewrite lookup_insert_ne | reflexivity].
Qed.

(** X12: what [reload] restores.  With a file that holds a JSON object,
    [reload] returns and [_props] has the keys it had before: a key that is
    also in the file has the value the file gives it, a key that is not in
    the file keeps its value, and a key of the file that was not in
    [_props] is not added. *)
Theorem reload_overwrites_known_keys (warn_ : bool) (items : list (string * value))
    (s : state) :
  config_file s = FileText (JsonObject items) -> NoDup items.*1 ->
  exists s', reload warn_ s = (Ok tt, s') /\
    forall k, config_props s' !! k =
      match config_props s !! k with
      | None => None
      | Some v => Some (default v ((list_to_map items : gmap string value) !! k))
      end.
Proof.
  intros Hfile Hnodup. unfold reload, bind at 1, gets at 1. rewrite Hfile.
  unfold bind at 1, modify at 1. rewrite reload_loop_run.
  eexists. split; [reflexivity |]. intros k. simpl.
  by apply reloaded_props_lookup.
Qed.

Lemma reload_overwrites_known_keys_witness :
  let s := run good_world (SetPort (VInt 9000))
             (run good_world Save (run good_world (SetPort (VInt 8080))
                                     (initial_state FileAbsent))) in
  exists s', reload true s = (Ok tt, s') /\
    forall k, config_props s' !! k =
      match config_props s !! k with
      | None => None
      | Some v => Some (default v ((list_to_map [("port", VInt 8080)]
                                      : gmap string value) !! k))
      end.
Proof.
  apply reload_overwrites_known_keys; [vm_compute; reflexivity |].
  simpl. apply NoDup_cons. split; [apply not_elem_of_nil | apply NoDup_nil_2].
Defined.

(** X13: within a session, [save] followed by [reload] leaves [_props] as
    it was when saved: every assigned property is read back with the value
    written, since the keys written are exactly the keys in [_props]. *)
Theorem save_then_reload_keeps_props W (warn_ : bool) (s s1 : state) :
  save W s = (Ok tt, s1) ->
  exists s2, reload warn_ s1 = (Ok tt, s2) /\ config_props s2 = config_props s.
Proof.
  intros Hsave.
  assert (Hprops : config_props s1 = config_props s).
  { revert Hsave. unfold save, bind, call, gets, modify.
    destruct (open_config_w W (trace s)); [| discriminate]. by intros [= <-]. }
  pose proof (save_writes_props W s s1 Hsave) as Hfile.
  unfold reload, bind at 1, gets at 1. rewrite Hfile.
  unfold bind at 1, modify at 1. rewrite reload_loop_run.
  eexists. split; [reflexivity |]. simpl. apply map_eq. intros k.
  rewrite reloaded_props_lookup by apply NoDup_fst_map_to_list.
  rewrite Hprops, list_to_map_to_list.
  by destruct (config_props s !! k).
Qed.

Lemma save_then_reload_keeps_props_witness :
  exists s2, reload true saved_session = (Ok tt, s2) /\
             config_props s2 = config_props assigned_session.
Proof.
  apply (save_then_reload_keeps_props good_world true assigned_session saved_session).
  vm_compute. reflexivity.
Defined.

(** X14: a configuration file that is missing, cannot be read, or does not
    hold JSON is no error: [reload] returns, nothing but the history of
    calls has changed, and a warning is issued exactly when [warn] is
    set. *)
Theorem reload_tolerates_bad_files (warn_ : bool) (s : state) :
  config_file s = FileAbsent \/ config_file s = FileUnreadable \/
  config_file s = FileText NotJson ->
  exists l, reload warn_ s = (Ok tt, extend l s) /\
            (if warn_ then exists msg, last l = Some (EWarn msg)
             else forall msg, EWarn msg ∉ l).
Proof.
  intros Hfile. unfold reload, bind at 1, gets at 1.
  destruct Hfile as [-> | [-> | ->]]; destruct warn_; simpl.
  - exists [EWarn "Orca configuration file not found"]. split; [reflexivity | by eexists].
  - exists []. rewrite extend_nil. split; [reflexivity |]. intros msg. apply not_elem_of_nil.
  - exists [EOpenConfig "r"; EWarn "Unable to read orca configuration file"].
    split; [| by eexists]. by rewrite <- extend_log.
  - exists [EOpenConfig "r"]. split; [reflexivity |].
    intros msg Hin. apply list_elem_of_In in Hin. simpl in Hin. by destruct Hin as [? | []].
  - exists [EOpenConfig "r"; EWarn "Orca configuration file is not valid JSON"].
    split; [| by eexists]. by rewrite <- extend_log.
  - exists [EOpenConfig "r"]. split; [reflexivity |].
    intros msg Hin. apply list_elem_of_In in Hin. simpl in Hin. by destruct Hin as [? | []].
Qed.

Lemma reload_tolerates_bad_files_witness :
  exists l, reload false (running_state good_world) = (Ok tt, extend l (running_state good_world)) /\
            forall msg, EWarn msg ∉ l.
Proof.
  apply (reload_tolerates_bad_files false (running_state good_world)).
  left. vm_compute. reflexivity.
Defined.

(** ** Formats, psutil and the request *)

(** X15: what [_validate_coerce_format] returns is [None], for [None], or
    one of the six supported formats; and it is a fixed point: coercing it
    again returns it, as [to_image] does with the default format and with
    the format [write_image] inferred. *)
Theorem coerced_format_is_normal (v v' : value) :
  _validate_coerce_format v = Ok v' ->
  ((v = VNone /\ v' = VNone) \/ exists f, v' = VStr f /\ f ∈ valid_formats) /\
  _validate_coerce_format v' = Ok v'.
Proof.
  destruct v as [| b | n | r | s | t str]; try discriminate.
  - intros [= <-]. split; [by left | reflexivity].
  - rewrite validate_coerce_format_str.
    destruct (spec_normalize_format s) as [f |] eqn:Hnorm; [| discriminate].
    intros [= <-].
    assert (Hf : f ∈ valid_formats).
    { unfold spec_normalize_format in Hnorm. cbv zeta in Hnorm.
      case_bool_decide as Hin; [| discriminate]. by injection Hnorm as <-. }
    split; [right; by exists f |].
    apply list_elem_of_In in Hf. simpl in Hf.
    destruct Hf as [<- | [<- | [<- | [<- | [<- | [<- | []]]]]]]; vm_compute; reflexivity.
Qed.

Lemma coerced_format_is_normal_witness :
  ((VStr ".JPG" = VNone /\ VStr "jpeg" = VNone) \/
   exists f, VStr "jpeg" = VStr f /\ f ∈ valid_formats) /\
  _validate_coerce_format (VStr "jpeg") = Ok (VStr "jpeg").
Proof.
  apply (coerced_format_is_normal (VStr ".JPG") (VStr "jpeg")). vm_compute. reflexivity.
Defined.

(** X16: without psutil nothing is attempted: [ensure_orca_server],
    [to_image], and [write_image] with a format or a destination that is
    not a path, raise the psutil [ValueError] in the state they started
    from; no executable is looked up, no process started, no request sent
    and no file written, whatever is installed. *)
Theorem psutil_is_required W (s : state) :
  psutil W = false ->
  ensure_orca_server W s = (Raise (ValueError PsutilRequired), s) /\
  (forall fig format width height scale,
     to_image W fig format width height scale s
       = (Raise (ValueError PsutilRequired), s)) /\
  (forall fig file format scale width height,
     isinstance_str file && is_None format = false ->
     write_image W fig file format scale width height s
       = (Raise (ValueError PsutilRequired), s)).
Proof.
  intros Hpsutil.
  assert (Hensure : ensure_orca_server W s = (Raise (ValueError PsutilRequired), s))
    by (unfold ensure_orca_server; by rewrite Hpsutil).
  assert (Himage : forall fig format width height scale,
             to_image W fig format width height scale s
               = (Raise (ValueError PsutilRequired), s)).
  { intros. unfold to_image, bind at 1. by rewrite Hensure. }
  split; [exact Hensure |]. split; [exact Himage |].
  intros fig file format scale width height Hgiven.
  unfold write_image. rewrite Hgiven. unfold bind at 1, ret at 1.
  unfold bind at 1. by rewrite Himage.
Qed.

Lemma psutil_is_required_witness :
  ensure_orca_server
      (mkWorld false "" (fun _ _ => Ok None) (fun _ _ => Ok "") (fun _ => Ok 0)
               (fun _ _ => Ok 0) (fun _ _ => Ok []) (fun _ _ => Ok tt) (fun _ _ => Ok tt)
               (fun _ _ => Ok tt) (fun _ _ => Ok tt)
               (fun _ _ _ => Ok (Response 200 "")) (fun _ => 0) (fun _ => 0)
               (fun _ => Ok tt) (fun _ _ => Ok tt) (fun _ _ _ => Ok tt)
               (fun _ _ _ => Ok tt) (fun _ _ _ => "") (fun _ _ _ files => files))
      (initial_state FileAbsent)
    = (Raise (ValueError PsutilRequired), initial_state FileAbsent).
Proof.
  apply psutil_is_required. reflexivity.
Defined.

(** The retry loop, with a budget that covers the retries left: when it
    raises, the delay since the first attempt has reached the budget; and
    it makes at most one post per attempt. *)
Lemma retrying_call_raises_late {A} W (fn : M A) (start_time : Z) :
  steps later fn ->
  forall (n : nat) (s s' : state) (e : exn),
    stop_max_delay - (clock s - start_time) <= wait_random_min * Z.of_nat n ->
    retrying_call W n start_time fn s = (Raise e, s') ->
    stop_max_delay <= clock s' - start_time.
Proof.
  intros Hfn. induction n as [| n IH]; intros s s' e Hbudget; simpl;
    pose proof (Hfn s) as Hlater; unfold later in Hlater;
    destruct (fn s) as [[a | e1] s1]; try discriminate; simpl in Hlater;
    destruct (Z.leb_spec stop_max_delay (clock s1 - start_time)) as [Hstop | Hgo].
  - by intros [= _ <-].
  - unfold wait_random_min in Hbudget. lia.
  - by intros [= _ <-].
  - destruct (random_sleep_run W s1) as (ms & Hms & Hsleep).
    unfold bind. rewrite Hsleep. apply IH.
    simpl. unfold wait_random_min in *. lia.
Qed.

Lemma posts_log (e : event) (s : state) :
  posts (log e s) = (posts s + (if is_post e then 1 else 0))%nat.
Proof. unfold posts. simpl. by rewrite filter_app, length_app, count_single. Qed.

Lemma request_image_posts W kwargs (s : state) :
  (posts (request_image W kwargs s).2 <= posts s + 1)%nat.
Proof.
  unfold request_image. cbv [bind gets call modify ret].
  destruct (orca_port s); [| simpl; lia].
  simpl. destruct (requests_post W _ _ _); simpl;
    change (posts (log ?e (set_clock ?f s))) with (posts (log e s));
    rewrite posts_log; simpl; lia.
Qed.

Lemma retrying_call_posts W kwargs (start_time : Z) (n : nat) (s : state) :
  (posts (retrying_call W n start_time (request_image W kwargs) s).2 <= posts s + S n)%nat.
Proof.
  revert s. induction n as [| n IH]; intros s; simpl;
    pose proof (request_image_posts W kwargs s) as Hone;
    destruct (request_image W kwargs s) as [[a | e] s1]; simpl in *; try lia;
    destruct (stop_max_delay <=? clock s1 - start_time); simpl; try lia.
  unfold bind, random_sleep. cbv [bind gets modify ret].
  match goal with |- context [retrying_call W n start_time _ ?s2] =>
    pose proof (IH s2) as Hrest;
    change (posts s2) with (posts (log (ESleep (Z.max wait_random_min
      (Z.min wait_random_max (randint W (trace s1))))) s1)) in Hrest
  end.
  rewrite posts_log in Hrest. simpl in Hrest. lia.
Qed.

(** X17: a request gives up only when its time is up.  Whatever goes
    wrong, a missing port, a refused connection or any other exception,
    [_request_image_with_retrying] raises only once 10000 ms have passed
    since it was called, and it has posted at most 2001 times. *)
Theorem request_gives_up_after_budget W kwargs (s s' : state) (e : exn) :
  _request_image_with_retrying W kwargs s = (Raise e, s') ->
  stop_max_delay <= clock s' - clock s /\
  (posts s' <= posts s + 2001)%nat.
Proof.
  intros Hrun. split.
  - apply (retrying_call_raises_late W (request_image W kwargs) (clock s)
             (request_image_later W kwargs) max_retries s s' e); [| exact Hrun].
    replace (clock s - clock s) with 0 by lia. vm_compute. discriminate.
  - pose proof (retrying_call_posts W kwargs (clock s) max_retries s) as Hposts.
    change (retrying_call W max_retries (clock s) (request_image W kwargs) s)
      with (_request_image_with_retrying W kwargs s) in Hposts.
    rewrite Hrun in Hposts. exact Hposts.
Qed.

Lemma request_gives_up_after_budget_witness :
  stop_max_delay <=
    clock (_request_image_with_retrying down_world [("figure", VOther true "Figure()")]
             (running_state down_world)).2
    - clock (running_state down_world) /\
  (posts (_request_image_with_retrying down_world [("figure", VOther true "Figure()")]
            (running_state down_world)).2
   <= posts (running_state down_world) + 2001)%nat.
Proof.
  apply (request_gives_up_after_budget down_world [("figure", VOther true "Figure()")]
           (running_state down_world) _ (External "ConnectionError")).
  vm_compute. reflexivity.
Defined.

(** X18: an image request from end to end.  When [ensure_orca_server]
    returns, the format (the one given, or else the configured default)
    is accepted, and the server answers the first post, [to_image] returns
    the body of the answer after that one post, made to
    [http://localhost:<port>/] for the port of the process table, with the
    figure, the coerced format, and the scale, width and height given or
    else configured; whatever is [None] among them is left out of the
    request. *)
Theorem to_image_posts_defaults W fig format width height scale
    (s s1 : state) (port f : value) (r : response) :
  ensure_orca_server W s = (Ok tt, s1) ->
  orca_port s1 = Some port ->
  _validate_coerce_format
    (if is_None format then config_value s1 "default_format" (VStr "png") else format)
    = Ok f ->
  requests_post W (trace s1) (request_url port)
    (request_params (image_kwargs s1 fig f width height scale)) = Ok r ->
  to_image W fig format width height scale s =
    (Ok (content r), after_post W (image_kwargs s1 fig f width height scale) port s1) /\
  (forall kv, kv ∈ request_params (image_kwargs s1 fig f width height scale) ->
              is_None kv.2 = false).
Proof.
  intros Hensure Hport Hformat Hpost. split.
  - unfold to_image, bind at 1. rewrite Hensure.
    unfold or_default, get_default_format, get_default_scale, get_default_width,
      get_default_height, props_get.
    assert (Hfmt : (if is_None format
                    then gets (fun s0 => match config_props s0 !! "default_format" with
                                         | Some v => v
                                         | None => VStr "png"
                                         end)
                    else ret format) s1
                   = (Ok (if is_None format
                          then config_value s1 "default_format" (VStr "png")
                          else format), s1))
      by (by destruct (is_None format)).
    unfold bind at 1. rewrite Hfmt. unfold bind at 1. rewrite Hformat.
    assert (Hget : forall (v : value) k d,
               (if is_None v
                then gets (fun s0 => match config_props s0 !! k with
                                     | Some v0 => v0
                                     | None => d
                                     end)
                else ret v) s1
               = (Ok (if is_None v then config_value s1 k d else v), s1))
      by (intros v k d; by destruct (is_None v)).
    unfold bind at 1. rewrite Hget. unfold bind at 1. rewrite Hget.
    unfold bind at 1. rewrite Hget.
    fold (image_kwargs s1 fig f width height scale).
    unfold _request_image_with_retrying, bind, gets.
    apply retrying_call_returns.
    rewrite (request_image_run W _ port s1 Hport). by rewrite Hpost.
  - intros kv Hin. unfold request_params in Hin.
    apply list_elem_of_filter in Hin as [Hnot _].
    by destruct (is_None kv.2).
Qed.

Lemma to_image_posts_defaults_witness :
  to_image good_world (VOther true "Figure()") VNone VNone (VInt 300) VNone
           (initial_state FileAbsent) =
    (Ok (content (Response 200 png_bytes)),
     after_post good_world
       (image_kwargs (running_state good_world) (VOther true "Figure()") (VStr "png")
                     VNone (VInt 300) VNone)
       (VInt 5000) (running_state good_world)) /\
  (forall kv,
     kv ∈ request_params
            (image_kwargs (running_state good_world) (VOther true "Figure()") (VStr "png")
                          VNone (VInt 300) VNone) ->
     is_None kv.2 = false).
Proof.
  apply (to_image_posts_defaults good_world (VOther true "Figure()") VNone VNone (VInt 300)
           VNone (initial_state FileAbsent) (running_state good_world)
           (VInt 5000) (VStr "png") (Response 200 png_bytes));
    vm_compute; reflexivity.
Defined.

Example to_image_request_parameters :
  request_params (image_kwargs (running_state good_world) (VOther true "Figure()")
                               (VStr "png") VNone (VInt 300) VNone)
    = [("figure", VOther true "Figure()"); ("format", VStr "png"); ("scale", VInt 1);
       ("height", VInt 300)].
Proof. vm_compute. reflexivity. Qed.

(** ** Files and ports *)

#[local] Instance unwritten_refl : Reflexive unwritten.
Proof.
  intros s. split; [reflexivity |].
  exists []. split; [symmetry; apply app_nil_r | reflexivity].
Qed.

#[local] Instance unwritten_trans : Transitive unwritten.
Proof.
  intros s1 s2 s3 [Hf1 [l1 [H1 F1]]] [Hf2 [l2 [H2 F2]]]. split; [congruence |].
  exists (l1 ++ l2)%list. split.
  - rewrite H2, H1. symmetry. apply app_assoc.
  - rewrite forallb_app, F1, F2. reflexivity.
Qed.







(** A write that fails leaves the file that was opened, empty here; and an
    open file object given as destination gets the bytes in its file. *)
Example write_image_on_full_disk :
  let r := write_image disk_full_world (VOther true "Figure()") (VStr "out.png")
                       VNone VNone VNone VNone (initial_state FileAbsent) in
  r.1 = Raise (External "OSError") /\ files r.2 !! "out.png" = Some "".
Proof. vm_compute. split; reflexivity. Qed.

Example write_image_to_open_file :
  let r := write_image (open_file_world "plot.png") (VOther true "Figure()")
                       (VOther true "<_io.BufferedWriter name='plot.png'>")
                       (VStr "png") VNone VNone VNone (initial_state FileAbsent) in
  r.1 = Ok tt /\ files r.2 !! "plot.png" = Some png_bytes.
Proof. vm_compute. split; reflexivity. Qed.

(** X20: the port of a launch.  With a port configured, the launch block
    opens no socket and the process table gets that port; with none, it
    asks the socket once and the table gets the port the socket reports. *)
Theorem launch_port W (s : state) :
  (is_None (config_value s "port" VNone) = false ->
   port_picks (launch_orca_server W s).2 = port_picks s /\
   orca_port (launch_orca_server W s).2 = Some (config_value s "port" VNone)) /\
  (is_None (config_value s "port" VNone) = true ->
   port_picks (launch_orca_server W s).2 = S (port_picks s) /\
   forall p, getsockname W (trace s) = Ok p ->
             orca_port (launch_orca_server W s).2 = Some (VInt p)).
Proof.
  rewrite launch_run. split; intros Hcfg; rewrite Hcfg.
  - cbv zeta. destruct (Popen W _ _); simpl;
      change (port_picks (set_status ?f ?x)) with (port_picks x);
      change (port_picks (set_orca_proc ?f ?x)) with (port_picks x);
      rewrite port_picks_log; simpl;
      change (port_picks (set_orca_port ?f ?x)) with (port_picks x);
      split; [lia | reflexivity | lia | reflexivity].
  - destruct (getsockname W (trace s)) as [p | e]; cbv zeta.
    + destruct (Popen W _ _); simpl;
        change (port_picks (set_status ?f ?x)) with (port_picks x);
        change (port_picks (set_orca_proc ?f ?x)) with (port_picks x);
        rewrite port_picks_log; simpl;
        change (port_picks (set_orca_port ?f ?x)) with (port_picks x);
        rewrite port_picks_log; simpl;
        (split; [lia | by intros ? [= <-]]).
    + simpl. rewrite port_picks_log. simpl. split; [lia | discriminate].
Qed.

Lemma launch_port_witness :
  port_picks (launch_orca_server good_world
                (run good_world (SetPort (VInt 8080)) (initial_state FileAbsent))).2
    = port_picks (run good_world (SetPort (VInt 8080)) (initial_state FileAbsent)) /\
  orca_port (launch_orca_server good_world
               (run good_world (SetPort (VInt 8080)) (initial_state FileAbsent))).2
    = Some (config_value (run good_world (SetPort (VInt 8080)) (initial_state FileAbsent))
                         "port" VNone).
Proof.
  apply (proj1 (launch_port good_world
                  (run good_world (SetPort (VInt 8080)) (initial_state FileAbsent)))).
  vm_compute. reflexivity.
Defined.
